(** * Adaptive difficulty and session progression of the therapy session page

    Shallow embedding of the [TherapySession] React component
    (src/unnamed/part_004): the difficulty classifier
    [getDifficultyFromWabScore], the attempt handler [processAudio] and the
    progression handler [nextSentence], together with the helpers they call.

    Modelling conventions.
    - A JavaScript [number] that holds a score or a mean is an exact
      rational ([Q]); binary64 rounding is not modelled there, and where
      rounding decides a property the aggregator is evaluated on the
      doubles themselves (module [Binary64]).  The counters
      [current], [total] and [completed] only ever receive integer literals
      and [+ 1], so they are integers ([Z]).
    - The union type ['easy' | 'medium' | 'hard'] is the inductive
      [Difficulty]; [!==] on it is [negb (Difficulty_eqb _ _)].
    - Every [useState] cell of the component is a field of [State].  A
      handler is a closure created by one render: it READS the values of
      that render (the argument [r]) and WRITES the store through the
      setters, where [setX v] overwrites and [setX (prev => ...)] is applied
      to the store as it is at that moment.
    - A call to the backend is an input of the handler: [Some reply] when the
      promise resolves, [None] when it rejects (the [catch] branch). *)

From Stdlib Require Import ZArith QArith Qminmax Lqa Lia.
From Stdlib Require Import String List Bool.
From Stdlib Require PrimFloat.
Import ListNotations.

Local Open Scope string_scope.
Local Open Scope Z_scope.

(** ** Tiers *)

Inductive Difficulty : Type := easy | medium | hard.

Definition Difficulty_eqb (a b : Difficulty) : bool :=
  match a, b with
  | easy, easy | medium, medium | hard, hard => true
  | _, _ => false
  end.

(** The order [easy < medium < hard], in the spec's words (data model,
    section 3); the source only has the union type. *)
Definition tierRank (d : Difficulty) : nat :=
  match d with easy => 0 | medium => 1 | hard => 2 end.

Definition tier_le (a b : Difficulty) : Prop := (tierRank a <= tierRank b)%nat.

(** ** The classifier (part_004, lines 606-610) *)

Definition getDifficultyFromWabScore (wabScore : Q) : Difficulty :=
  if Qle_bool 76 wabScore then hard          (* Mild aphasia *)
  else if Qle_bool 51 wabScore then medium   (* Moderate aphasia *)
  else easy.                                 (* Severe / very severe *)

(** ** Data model (part_004, lines 22-49 and 556-578) *)

Module Sentence.
Record t : Type := mk {
  id : string;
  text : string;
  language : string;
  difficulty : Difficulty;
  category : string;
  targetWords : list string
}.
End Sentence.

Module WordCorrection.
Record t : Type := mk {
  word : string;
  position : Z;
  issue : string;
  correction : string;
  pronunciation_tip : string
}.
End WordCorrection.

(** The reply of [sessionAPI.processAudio]. *)
Module SessionResult.
Record t : Type := mk {
  transcription : string;
  accuracy : Q;
  wab_score : Q;
  severity : string;
  feedback : string;
  detailed_errors : list string;
  practice_suggestions : list string;
  feedback_audio_url : option string;
  word_corrections : option (list WordCorrection.t)
}.
End SessionResult.

(** The object held by [sessionProgress]. *)
Module Progress.
Record t : Type := mk {
  current : Z;
  total : Z;
  completed : Z;
  accuracy : Q;
  totalWabScore : Q
}.
End Progress.

(** The reply of [sessionAPI.startSession], as far as the component reads
    it ([progress] is only logged). *)
Record StartResponse : Type := mkStartResponse {
  session_id : string;
  current_difficulty : option Difficulty
}.

(** The reply of [sessionAPI.completeSession]. *)
Record CompletionResult : Type := mkCompletionResult {
  next_difficulty : option Difficulty;
  progression_message : option string
}.

(** The [useState] cells of the component, the recorder reference, and what
    the component does to the outside: the [alert]s shown, the route passed
    to [navigate] and the language written to the language context. *)
Record State : Type := mkState {
  sessionId : option string;
  sessionLanguage : string;
  isRecording : bool;
  isProcessing : bool;
  isLoadingSentences : bool;
  currentSentence : option Sentence.t;
  sessionResult : option SessionResult.t;
  availableSentences : list Sentence.t;
  sentenceIndex : nat;
  sessionProgress : Progress.t;
  currentDifficulty : Difficulty;
  userWabScore : Q;
  mediaRecorderRef : bool;
  alerts : list string;
  location : option string;
  contextLanguage : string
}.

(** [useState({ current: 1, total: 10, completed: 0, accuracy: 0,
    totalWabScore: 0 })], also the object of the reset in [nextSentence]. *)
Definition freshProgress : Progress.t :=
  Progress.mk 1 10 0 0%Q 0%Q.

(** The state of the first render; [lang] is the language of the language
    context and [wab] is [user?.wabScore || 50]. *)
Definition initialState (lang : string) (wab : Q) : State :=
  {| sessionId := None;
     sessionLanguage := lang;
     isRecording := false;
     isProcessing := false;
     isLoadingSentences := false;
     currentSentence := None;
     sessionResult := None;
     availableSentences := [];
     sentenceIndex := 0%nat;
     sessionProgress := freshProgress;
     currentDifficulty := easy;
     userWabScore := wab;
     mediaRecorderRef := false;
     alerts := [];
     location := None;
     contextLanguage := lang |}.

(** ** Store transformers *)

Definition Handler : Type := State -> State.

Definition skip : Handler := fun st => st.

Definition andThen (h k : Handler) : Handler := fun st => k (h st).

Notation "h ;; k" := (andThen h k) (at level 61, right associativity).

Definition setSessionId (v : option string) : Handler := fun st =>
  mkState
    v (sessionLanguage st) (isRecording st) (isProcessing st)
    (isLoadingSentences st) (currentSentence st) (sessionResult st)
    (availableSentences st) (sentenceIndex st) (sessionProgress st)
    (currentDifficulty st) (userWabScore st) (mediaRecorderRef st)
    (alerts st) (location st) (contextLanguage st).

Definition setSessionLanguage (v : string) : Handler := fun st =>
  mkState
    (sessionId st) v (isRecording st) (isProcessing st)
    (isLoadingSentences st) (currentSentence st) (sessionResult st)
    (availableSentences st) (sentenceIndex st) (sessionProgress st)
    (currentDifficulty st) (userWabScore st) (mediaRecorderRef st)
    (alerts st) (location st) (contextLanguage st).

Definition setIsRecording (v : bool) : Handler := fun st =>
  mkState
    (sessionId st) (sessionLanguage st) v (isProcessing st)
    (isLoadingSentences st) (currentSentence st) (sessionResult st)
    (availableSentences st) (sentenceIndex st) (sessionProgress st)
    (currentDifficulty st) (userWabScore st) (mediaRecorderRef st)
    (alerts st) (location st) (contextLanguage st).

Definition setIsProcessing (v : bool) : Handler := fun st =>
  mkState
    (sessionId st) (sessionLanguage st) (isRecording st) v
    (isLoadingSentences st) (currentSentence st) (sessionResult st)
    (availableSentences st) (sentenceIndex st) (sessionProgress st)
    (currentDifficulty st) (userWabScore st) (mediaRecorderRef st)
    (alerts st) (location st) (contextLanguage st).

Definition setIsLoadingSentences (v : bool) : Handler := fun st =>
  mkState
    (sessionId st) (sessionLanguage st) (isRecording st) (isProcessing st)
    v (currentSentence st) (sessionResult st) (availableSentences st)
    (sentenceIndex st) (sessionProgress st) (currentDifficulty st)
    (userWabScore st) (mediaRecorderRef st) (alerts st) (location st)
    (contextLanguage st).

Definition setCurrentSentence (v : option Sentence.t) : Handler := fun st =>
  mkState
    (sessionId st) (sessionLanguage st) (isRecording st) (isProcessing st)
    (isLoadingSentences st) v (sessionResult st) (availableSentences st)
    (sentenceIndex st) (sessionProgress st) (currentDifficulty st)
    (userWabScore st) (mediaRecorderRef st) (alerts st) (location st)
    (contextLanguage st).

Definition setSessionResult (v : option SessionResult.t) : Handler := fun st =>
  mkState
    (sessionId st) (sessionLanguage st) (isRecording st) (isProcessing st)
    (isLoadingSentences st) (currentSentence st) v (availableSentences st)
    (sentenceIndex st) (sessionProgress st) (currentDifficulty st)
    (userWabScore st) (mediaRecorderRef st) (alerts st) (location st)
    (contextLanguage st).

Definition setAvailableSentences (v : list Sentence.t) : Handler := fun st =>
  mkState
    (sessionId st) (sessionLanguage st) (isRecording st) (isProcessing st)
    (isLoadingSentences st) (currentSentence st) (sessionResult st) v
    (sentenceIndex st) (sessionProgress st) (currentDifficulty st)
    (userWabScore st) (mediaRecorderRef st) (alerts st) (location st)
    (contextLanguage st).

Definition setSentenceIndex (v : nat) : Handler := fun st =>
  mkState
    (sessionId st) (sessionLanguage st) (isRecording st) (isProcessing st)
    (isLoadingSentences st) (currentSentence st) (sessionResult st)
    (availableSentences st) v (sessionProgress st) (currentDifficulty st)
    (userWabScore st) (mediaRecorderRef st) (alerts st) (location st)
    (contextLanguage st).

(** The functional form [setSessionProgress(prev => ...)]; the plain form
    [setSessionProgress(v)] is [setSessionProgress (fun _ => v)]. *)
Definition setSessionProgress (f : Progress.t -> Progress.t) : Handler := fun st =>
  mkState
    (sessionId st) (sessionLanguage st) (isRecording st) (isProcessing st)
    (isLoadingSentences st) (currentSentence st) (sessionResult st)
    (availableSentences st) (sentenceIndex st) (f (sessionProgress st))
    (currentDifficulty st) (userWabScore st) (mediaRecorderRef st)
    (alerts st) (location st) (contextLanguage st).

Definition setCurrentDifficulty (v : Difficulty) : Handler := fun st =>
  mkState
    (sessionId st) (sessionLanguage st) (isRecording st) (isProcessing st)
    (isLoadingSentences st) (currentSentence st) (sessionResult st)
    (availableSentences st) (sentenceIndex st) (sessionProgress st) v
    (userWabScore st) (mediaRecorderRef st) (alerts st) (location st)
    (contextLanguage st).

Definition setUserWabScore (v : Q) : Handler := fun st =>
  mkState
    (sessionId st) (sessionLanguage st) (isRecording st) (isProcessing st)
    (isLoadingSentences st) (currentSentence st) (sessionResult st)
    (availableSentences st) (sentenceIndex st) (sessionProgress st)
    (currentDifficulty st) v (mediaRecorderRef st) (alerts st)
    (location st) (contextLanguage st).

Definition setMediaRecorderRef (v : bool) : Handler := fun st =>
  mkState
    (sessionId st) (sessionLanguage st) (isRecording st) (isProcessing st)
    (isLoadingSentences st) (currentSentence st) (sessionResult st)
    (availableSentences st) (sentenceIndex st) (sessionProgress st)
    (currentDifficulty st) (userWabScore st) v (alerts st) (location st)
    (contextLanguage st).

Definition alert (msg : string) : Handler := fun st =>
  mkState
    (sessionId st) (sessionLanguage st) (isRecording st) (isProcessing st)
    (isLoadingSentences st) (currentSentence st) (sessionResult st)
    (availableSentences st) (sentenceIndex st) (sessionProgress st)
    (currentDifficulty st) (userWabScore st) (mediaRecorderRef st)
    (alerts st ++ [msg]) (location st) (contextLanguage st).

Definition navigate (route : string) : Handler := fun st =>
  mkState
    (sessionId st) (sessionLanguage st) (isRecording st) (isProcessing st)
    (isLoadingSentences st) (currentSentence st) (sessionResult st)
    (availableSentences st) (sentenceIndex st) (sessionProgress st)
    (currentDifficulty st) (userWabScore st) (mediaRecorderRef st)
    (alerts st) (Some route) (contextLanguage st).

Definition setLanguage (v : string) : Handler := fun st =>
  mkState
    (sessionId st) (sessionLanguage st) (isRecording st) (isProcessing st)
    (isLoadingSentences st) (currentSentence st) (sessionResult st)
    (availableSentences st) (sentenceIndex st) (sessionProgress st)
    (currentDifficulty st) (userWabScore st) (mediaRecorderRef st)
    (alerts st) (location st) v.

(** JavaScript truthiness of a [string | null] cell: [null] and the empty
    string are falsy. *)
Definition truthy (v : option string) : bool :=
  match v with
  | Some s => negb (s =? EmptyString)%string
  | None => false
  end.

Definition isNull {A : Type} (v : option A) : bool :=
  match v with Some _ => false | None => true end.

(** ** Session start (part_004, lines 612-641)

    [reply] is what [sessionAPI.startSession(sessionLanguage,
    currentDifficulty, user?.id)] resolved to. *)
Definition initializeSession (reply : option StartResponse) : Handler :=
  match reply with
  | Some response =>
      setSessionId (Some (session_id response)) ;;
      (* ALWAYS use the difficulty returned by backend *)
      match current_difficulty response with
      | Some d => setCurrentDifficulty d
      | None => skip
      end
  | None =>
      (* Fallback to offline mode *)
      setSessionId (Some "offline-session")
  end.

(** ** Loading sentences (part_004, lines 643-688) *)

Definition mockSentences (lang : string) (d : Difficulty) : list Sentence.t :=
  match d with
  | easy =>
      [ Sentence.mk "1" "Hello" lang easy "greeting" ["Hello"];
        Sentence.mk "2" "Water" lang easy "basic" ["Water"] ]
  | medium =>
      [ Sentence.mk "3" "I am hungry" lang medium "feeling" ["hungry"] ]
  | hard =>
      [ Sentence.mk "4" "I need medical assistance" lang hard "medical"
          ["medical"; "assistance"] ]
  end.

Definition loadFallbackSentences (r : State) : Handler :=
  let mock := mockSentences (sessionLanguage r) (currentDifficulty r) in
  setAvailableSentences mock ;;
  match mock with
  | first :: _ => setCurrentSentence (Some first)
  | [] => skip
  end.

(** The part of [loadSentencesFromAPI] that runs once
    [sessionAPI.getSentences(sessionLanguage, difficultyToUse,
    sessionProgress.total)] has settled; [difficultyOverride] only changes
    the request, whose [reply] is an input here. *)
Definition sentencesSettled (r : State) (reply : option (list Sentence.t))
  : Handler :=
  match reply with
  | Some sentences =>
      setAvailableSentences sentences ;;
      setSentenceIndex 0 ;;
      match sentences with
      | first :: _ => setCurrentSentence (Some first)
      | [] => skip
      end
  | None => loadFallbackSentences r
  end ;;
  setIsLoadingSentences false.

Definition loadSentencesFromAPI (r : State) (reply : option (list Sentence.t))
  : Handler :=
  setIsLoadingSentences true ;;
  sentencesSettled r reply.

(** ** Recording (part_004, lines 690-722); [granted] tells whether
    [getUserMedia] resolved. *)
Definition startRecording (granted : bool) : Handler :=
  if granted then
    setMediaRecorderRef true ;;
    setIsRecording true
  else
    alert "Please allow microphone access to use speech therapy.".

Definition stopRecording (r : State) : Handler :=
  if mediaRecorderRef r && isRecording r then setIsRecording false else skip.

(** ** One attempt (part_004, lines 724-795) *)

Definition errorResult : SessionResult.t :=
  SessionResult.mk
    "[Error processing audio]"
    0%Q
    0%Q
    "Unable to assess"
    "Error processing audio. Please check your microphone and try again."
    ["Audio processing failed"; "Please ensure microphone is working"]
    ["Check microphone permissions"; "Try recording again"]
    None
    None.

(** The updater of lines 757-762: [prev => ({ ...prev, completed, accuracy,
    totalWabScore })].  The divisor [prev.completed + 1] is at least 1 on
    every store the component reaches ([completed] starts at 0 and is only
    incremented or reset to 0, see [run_completed_nonneg]), so the division
    by zero, where [Q] and JavaScript differ, does not arise. *)
Definition recordAttempt (result : SessionResult.t) (prev : Progress.t)
  : Progress.t :=
  Progress.mk
    (Progress.current prev)
    (Progress.total prev)
    (Progress.completed prev + 1)
    ((Progress.accuracy prev * inject_Z (Progress.completed prev)
      + SessionResult.accuracy result)
     / inject_Z (Progress.completed prev + 1))%Q
    (Progress.totalWabScore prev + SessionResult.wab_score result)%Q.

(** [reply] is what [sessionAPI.processAudio(blob, currentSentence.text,
    sessionLanguage, sessionId)] resolved to, [None] when it threw. *)
Definition processAudio (r : State) (reply : option SessionResult.t)
  : Handler :=
  if isNull (currentSentence r) || negb (truthy (sessionId r)) then
    skip
  else
    setIsProcessing true ;;
    match reply with
    | Some result =>
        setSessionResult (Some result) ;;
        (* Update progress and WAB score *)
        let newWabScore := SessionResult.wab_score result in
        setUserWabScore newWabScore ;;
        setSessionProgress (recordAttempt result) ;;
        (* Adaptive difficulty adjustment based on performance *)
        let avgWabScore :=
          ((Progress.totalWabScore (sessionProgress r) + newWabScore)
           / inject_Z (Progress.completed (sessionProgress r) + 1))%Q in
        let newDifficulty := getDifficultyFromWabScore avgWabScore in
        if negb (Difficulty_eqb newDifficulty (currentDifficulty r)) then
          setCurrentDifficulty newDifficulty
        else skip
    | None =>
        (* Show actual error to user - DO NOT use fake high scores *)
        setSessionResult (Some errorResult) ;;
        alert "Error processing audio. Please check your microphone and internet connection, then try again."
    end ;;
    setIsProcessing false.

(** ** Advancing and completing (part_004, lines 813-893)

    [completion] is the reply of [sessionAPI.completeSession(sessionId)],
    [confirmed] the answer to [window.confirm], [start] the reply of the
    [startSession] call of the re-initialisation and [sentences] the reply
    of the one [getSentences] call the handler makes (if it makes one). *)

(** [completionResult.next_difficulty && completionResult.next_difficulty
    !== currentDifficulty], returning the tier on offer. *)
Definition offeredTier (r : State) (completionResult : CompletionResult)
  : option Difficulty :=
  match next_difficulty completionResult with
  | Some d => if Difficulty_eqb d (currentDifficulty r) then None else Some d
  | None => None
  end.

Definition nextSentence (r : State)
    (completion : option CompletionResult) (confirmed : bool)
    (start : option StartResponse) (sentences : option (list Sentence.t))
  : Handler :=
  if Progress.current (sessionProgress r) <? Progress.total (sessionProgress r)
  then
    setSessionProgress (fun prev =>
      Progress.mk (Progress.current prev + 1) (Progress.total prev)
        (Progress.completed prev) (Progress.accuracy prev)
        (Progress.totalWabScore prev)) ;;
    (* Load next sentence from available sentences *)
    let nextIndex := (sentenceIndex r + 1)%nat in
    if (nextIndex <? length (availableSentences r))%nat then
      setSentenceIndex nextIndex ;;
      setCurrentSentence (nth_error (availableSentences r) nextIndex) ;;
      setSessionResult None
    else
      (* Reload sentences if we've run out: the call is not awaited, so
         the handler goes on before the reply arrives *)
      setIsLoadingSentences true ;;
      setSessionResult None ;;
      sentencesSettled r sentences
  else
    (* Session complete - call backend to finalize *)
    if truthy (sessionId r) then
      match completion with
      | Some completionResult =>
          match offeredTier r completionResult with
          | Some newDifficulty =>
              if confirmed then
                (* Update difficulty state FIRST *)
                setCurrentDifficulty newDifficulty ;;
                (* Reset progress for new session *)
                setSessionProgress (fun _ => freshProgress) ;;
                setCurrentSentence None ;;
                setSessionResult None ;;
                initializeSession start ;;
                loadSentencesFromAPI r sentences
                (* return: don't navigate away *)
              else
                navigate "/patient/dashboard"
          | None =>
              match progression_message completionResult with
              | Some message =>
                  (if negb (message =? EmptyString)%string then alert message
                   else skip) ;;
                  navigate "/patient/dashboard"
              | None => navigate "/patient/dashboard"
              end
          end
      | None =>
          (* catch: the error is logged *)
          navigate "/patient/dashboard"
      end
    else
      navigate "/patient/dashboard".

Definition changeLanguage (newLanguage : string) : Handler :=
  setSessionLanguage newLanguage ;;
  setLanguage newLanguage.

(** ** The event loop

    The interface is serialised: one handler runs at a time, created by the
    render of the store it starts from. *)
Inductive Event : Type :=
| Mount (start : option StartResponse)
| SentencesEffect (sentences : option (list Sentence.t))
| ClickRecord (granted : bool)
| ClickStop (reply : option SessionResult.t)
| ClickNext (completion : option CompletionResult) (confirmed : bool)
    (start : option StartResponse) (sentences : option (list Sentence.t))
| SelectLanguage (newLanguage : string).

Definition dispatch (e : Event) : Handler := fun st =>
  match e with
  | Mount start => initializeSession start st
  | SentencesEffect sentences =>
      (* useEffect on [sessionLanguage, currentDifficulty, sessionId] *)
      if truthy (sessionId st) then loadSentencesFromAPI st sentences st
      else st
  | ClickRecord granted => startRecording granted st
  | ClickStop reply =>
      (* stopRecording; the recorder's onstop then calls the processAudio
         of the render in which the recording started, whose sentence,
         session id, progress and tier are those still on screen *)
      if mediaRecorderRef st && isRecording st then
        (stopRecording st ;; processAudio st reply) st
      else st
  | ClickNext completion confirmed start sentences =>
      nextSentence st completion confirmed start sentences st
  | SelectLanguage newLanguage => changeLanguage newLanguage st
  end.

Definition run (events : list Event) (st : State) : State :=
  fold_left (fun s e => dispatch e s) events st.

(** Successive successfully scored attempts, each handler created by the
    render of the store it starts from. *)
Definition attempts (results : list SessionResult.t) (st : State) : State :=
  fold_left (fun s result => processAudio s (Some result) s) results st.

(** * Vocabulary of the properties *)

(** The guard of [processAudio]: a sentence is on screen and the session
    has an id, so the scoring call is made. *)
Definition canScore (r : State) : Prop :=
  isNull (currentSentence r) = false /\ truthy (sessionId r) = true.

(** The quota of the session is exhausted: the test [sessionProgress.current
    < sessionProgress.total] of [nextSentence] fails. *)
Definition atQuota (r : State) : Prop :=
  Progress.total (sessionProgress r) <= Progress.current (sessionProgress r).

(** What one event can do to the progress: leave it, advance the counter
    by one below the quota, record one scored attempt (which leaves the
    counter and the quota alone), or start a fresh session. *)
Inductive progressStep (p p' : Progress.t) : Prop :=
| progress_kept :
    p' = p ->
    progressStep p p'
| progress_advanced :
    Progress.current p < Progress.total p ->
    p' = Progress.mk (Progress.current p + 1) (Progress.total p)
           (Progress.completed p) (Progress.accuracy p)
           (Progress.totalWabScore p) ->
    progressStep p p'
| progress_scored (result : SessionResult.t) :
    p' = recordAttempt result p ->
    progressStep p p'
| progress_reset :
    p' = freshProgress ->
    progressStep p p'.

Definition withinQuota (p : Progress.t) : Prop :=
  1 <= Progress.current p <= Progress.total p.

(** The clamping of a score to [0, 100], in the spec's words (section
    4.1): [min(100, max(0, s))].  The component has no such step. *)
Definition clampScore (s : Q) : Q := Qmin 100 (Qmax 0 s).

Definition inRange (s : Q) : Prop := (0 <= s /\ s <= 100)%Q.



(** ** Sample stores and replies *)

Definition helloSentence : Sentence.t :=
  Sentence.mk "1" "Hello" "en" easy "greeting" ["Hello"].

(** A session on sentence [current] of 10 with [completed] attempts scored,
    running mean [accuracy] and WAB-AQ total [totalWabScore], at tier
    easy. *)
Definition sessionAt (current completed : Z) (accuracy totalWabScore : Q)
  : State :=
  {| sessionId := Some "session-1";
     sessionLanguage := "en";
     isRecording := false;
     isProcessing := false;
     isLoadingSentences := false;
     currentSentence := Some helloSentence;
     sessionResult := None;
     availableSentences := [helloSentence];
     sentenceIndex := 0%nat;
     sessionProgress := Progress.mk current 10 completed accuracy totalWabScore;
     currentDifficulty := easy;
     userWabScore := 50%Q;
     mediaRecorderRef := false;
     alerts := [];
     location := None;
     contextLanguage := "en" |}.

(** A session that has just started: nothing is scored yet. *)
Definition firstAttempt : State := sessionAt 1 0 0 0.

(** A session on its third sentence, two attempts scored so far. *)
Definition thirdAttempt : State := sessionAt 3 2 70 80.

(** A session whose last sentence has been attempted: [current = total],
    tier easy, mean accuracy 80. *)
Definition lastSentence : State := sessionAt 10 10 80 400.

(** A reply of the scoring service with the given accuracy and WAB-AQ
    score. *)
Definition scored (accuracy wab : Q) : SessionResult.t :=
  SessionResult.mk "hello" accuracy wab "Moderate" "Good attempt" [] []
    None None.

(** The reply of [completeSession] that reports the tier medium. *)
Definition reportsMedium : CompletionResult :=
  mkCompletionResult (Some medium) None.

(** The events of a session of ten sentences in which every attempt gets
    the same reply: mount, sentences loaded, then record, stop and (between
    attempts) next. *)
Definition oneRound (result : SessionResult.t) : list Event :=
  [ ClickRecord true; ClickStop (Some result) ].

Definition advance : Event :=
  ClickNext None false None (Some [helloSentence]).

Fixpoint rounds (n : nat) (result : SessionResult.t) : list Event :=
  match n with
  | O => oneRound result
  | S n' => (oneRound result ++ [advance] ++ rounds n' result)%list
  end.

Definition sessionOfTen (result : SessionResult.t) : list Event :=
  ([ Mount (Some (mkStartResponse "session-1" None));
     SentencesEffect (Some [helloSentence]) ]
   ++ rounds 9 result)%list.

(** * Further code of the page *)

(** ** Display of a result (part_004, lines 901-913) *)

Definition getAccuracyColor (accuracy : Q) : string :=
  if Qle_bool 90 accuracy then "text-green-600"
  else if Qle_bool 70 accuracy then "text-yellow-600"
  else if Qle_bool 50 accuracy then "text-orange-600"
  else "text-red-600".

Definition getAccuracyLabel (accuracy : Q) : string :=
  if Qle_bool 90 accuracy then "Excellent"
  else if Qle_bool 70 accuracy then "Good"
  else if Qle_bool 50 accuracy then "Fair"
  else "Needs Work".

(** ** The remaining controls (part_004, lines 1071-1077 and 1289-1307)

    The reload button is rendered with the sentence and is disabled while
    recording or processing; the button back to the dashboard is rendered
    when [completed === total]. *)
Inductive UiEvent : Type :=
| Core (e : Event)
| ClickRefresh (sentences : option (list Sentence.t))
| ClickBackToDashboard.

Definition dispatchUi (e : UiEvent) : Handler := fun st =>
  match e with
  | Core e' => dispatch e' st
  | ClickRefresh sentences =>
      if isNull (currentSentence st) || isRecording st || isProcessing st
      then st
      else loadSentencesFromAPI st sentences st
  | ClickBackToDashboard =>
      if Progress.completed (sessionProgress st)
         =? Progress.total (sessionProgress st)
      then navigate "/patient/dashboard" st
      else st
  end.

Definition runUi (events : list UiEvent) (st : State) : State :=
  fold_left (fun s e => dispatchUi e s) events st.

(** ** Vocabulary of the further properties *)

(** The scores of the replies an event carries lie in [0, 100]. *)
Definition scoresInRange (e : UiEvent) : Prop :=
  match e with
  | Core (ClickStop (Some result)) =>
      inRange (SessionResult.accuracy result) /\
      inRange (SessionResult.wab_score result)
  | _ => True
  end.

(** The replies of [getSentences] an event carries, if any. *)
Definition sentencesOf (e : UiEvent) : option (list Sentence.t) :=
  match e with
  | Core (SentencesEffect sentences) => sentences
  | Core (ClickNext _ _ _ sentences) => sentences
  | ClickRefresh sentences => sentences
  | _ => None
  end.

(** No reply of [getSentences] carried by the event is an empty list. *)
Definition noEmptyReply (e : UiEvent) : Prop :=
  sentencesOf e <> Some [].

(** The sentence on screen, if any, is one of the available ones. *)
Definition shownIsAvailable (st : State) : Prop :=
  forall s, currentSentence st = Some s -> In s (availableSentences st).

(** The last element of a list of replies. *)
Definition lastWab (rs : list SessionResult.t) (default : Q) : Q :=
  last (map SessionResult.wab_score rs) default.

(** The aggregates of a progress are those of scores in [0, 100]: the
    count is not negative, the running mean lies in [0, 100] and the WAB-AQ
    total lies between 0 and 100 times the count. *)
Definition aggregatesBounded (p : Progress.t) : Prop :=
  0 <= Progress.completed p /\
  inRange (Progress.accuracy p) /\
  (0 <= Progress.totalWabScore p)%Q /\
  (Progress.totalWabScore p <= 100 * inject_Z (Progress.completed p))%Q.

(** * The picture exercises (part_004, first component, lines 1-195)

    The [PictureTherapy] component, embedded by the same conventions.  A
    [Blob] is the list of the sizes of its chunks. *)

Module PictureTherapy.

Module Exercise.
Record t : Type := mk {
  id : Z;
  picture_url : string;
  picture_name : string;
  target_text : string;
  difficulty : string
}.
End Exercise.

(** The reply of [/api/practice/feedback]; its [word_corrections?: any[]]
    is read by no handler and is left out. *)
Module Feedback.
Record t : Type := mk {
  transcription : string;
  accuracy : Q;
  wab_score : Q;
  severity : string;
  feedback : string;
  feedback_audio_url : option string;
  practice_suggestions : option (list string)
}.
End Feedback.

Definition Blob : Type := list Z.

Record State : Type := mkState {
  language : string;
  difficulty : string;
  exercises : list Exercise.t;
  currentIndex : Z;
  isRecording : bool;
  audioBlob : option Blob;
  isProcessing : bool;
  result : option Feedback.t;
  showResult : bool;
  hasPlayedWord : bool;
  isPlayingWord : bool;
  mediaRecorderRef : bool;
  audioChunksRef : list Z;
  alerts : list string
}.

(** The state of the first render. *)
Definition initialState : State :=
  {| language := "en";
     difficulty := "easy";
     exercises := [];
     currentIndex := 0;
     isRecording := false;
     audioBlob := None;
     isProcessing := false;
     result := None;
     showResult := false;
     hasPlayedWord := false;
     isPlayingWord := false;
     mediaRecorderRef := false;
     audioChunksRef := [];
     alerts := [] |}.

(** ** Mock exercises data (lines 45-83), with the texts as the file has
    them *)

Definition mockExercises_en : list Exercise.t :=
  [ Exercise.mk 1 "/images/exercises/apple.jpg" "Apple" "apple" "easy";
    Exercise.mk 2 "/images/exercises/cat.jpg" "Cat" "cat" "easy";
    Exercise.mk 3 "/images/exercises/house.jpg" "House" "house" "easy";
    Exercise.mk 4 "/images/exercises/dog.jpg" "Dog" "dog" "easy";
    Exercise.mk 5 "/images/exercises/car.jpg" "Car" "car" "easy";
    Exercise.mk 6 "/images/exercises/book.jpg" "Book" "book" "easy";
    Exercise.mk 7 "/images/exercises/chair.jpg" "Chair" "chair" "medium";
    Exercise.mk 8 "/images/exercises/table.jpg" "Table" "table" "medium";
    Exercise.mk 9 "/images/exercises/flower.jpg" "Flower" "flower" "medium";
    Exercise.mk 10 "/images/exercises/tree.jpg" "Tree" "tree" "medium" ].

Definition mockExercises_hi : list Exercise.t :=
  [ Exercise.mk 1 "/images/exercises/apple.jpg" "Apple" "‡§∏‡•á‡§¨" "easy";
    Exercise.mk 2 "/images/exercises/cat.jpg" "Cat" "‡§¨‡§ø‡§≤‡•ç‡§≤‡•Ä" "easy";
    Exercise.mk 3 "/images/exercises/house.jpg" "House" "‡§ò‡§∞" "easy";
    Exercise.mk 4 "/images/exercises/dog.jpg" "Dog" "‡§ï‡•Å‡§§‡•ç‡§§‡§æ" "easy";
    Exercise.mk 5 "/images/exercises/car.jpg" "Car" "‡§ó‡§æ‡§°‡§º‡•Ä" "easy";
    Exercise.mk 6 "/images/exercises/book.jpg" "Book" "‡§ï‡§ø‡§§‡§æ‡§¨" "easy";
    Exercise.mk 7 "/images/exercises/chair.jpg" "Chair" "‡§ï‡•Å‡§∞‡•ç‡§∏‡•Ä" "medium";
    Exercise.mk 8 "/images/exercises/table.jpg" "Table" "‡§Æ‡•á‡§ú‡§º" "medium";
    Exercise.mk 9 "/images/exercises/flower.jpg" "Flower" "‡§´‡•Ç‡§≤" "medium";
    Exercise.mk 10 "/images/exercises/tree.jpg" "Tree" "‡§™‡•á‡§°‡§º" "medium" ].

Definition mockExercises_kn : list Exercise.t :=
  [ Exercise.mk 1 "/images/exercises/apple.jpg" "Apple" "‡≤∏‡≥á‡≤¨‡≥Å" "easy";
    Exercise.mk 2 "/images/exercises/cat.jpg" "Cat" "‡≤¨‡≥Ü‡≤ï‡≥ç‡≤ï‡≥Å" "easy";
    Exercise.mk 3 "/images/exercises/house.jpg" "House" "‡≤Æ‡≤®‡≥Ü" "easy";
    Exercise.mk 4 "/images/exercises/dog.jpg" "Dog" "‡≤®‡≤æ‡≤Ø‡≤ø" "easy";
    Exercise.mk 5 "/images/exercises/car.jpg" "Car" "‡≤ï‡≤æ‡≤∞‡≥Å" "easy";
    Exercise.mk 6 "/images/exercises/book.jpg" "Book" "‡≤™‡≥Å‡≤∏‡≥ç‡≤§‡≤ï" "easy";
    Exercise.mk 7 "/images/exercises/chair.jpg" "Chair" "‡≤ï‡≥Å‡≤∞‡≥ç‡≤ö‡≤ø" "medium";
    Exercise.mk 8 "/images/exercises/table.jpg" "Table" "‡≤Æ‡≥á‡≤ú‡≥Å" "medium";
    Exercise.mk 9 "/images/exercises/flower.jpg" "Flower" "‡≤π‡≥Ç‡≤µ‡≥Å" "medium";
    Exercise.mk 10 "/images/exercises/tree.jpg" "Tree" "‡≤Æ‡≤∞" "medium" ].

(** [mockExercises[language]] for the own keys of the table.  The keys an
    object literal inherits ([constructor], [toString], ...) are not
    modelled: the select sends en, hi and kn only, and nothing is stated
    below about a key without a table. *)
Definition mockExercises (key : string) : option (list Exercise.t) :=
  if (key =? "en")%string then Some mockExercises_en
  else if (key =? "hi")%string then Some mockExercises_hi
  else if (key =? "kn")%string then Some mockExercises_kn
  else None.

(** [exercises[currentIndex]], [None] for [undefined]. *)
Definition at_index {A : Type} (l : list A) (i : Z) : option A :=
  if i <? 0 then None else nth_error l (Z.to_nat i).

(** ** Store transformers *)

Definition Handler : Type := State -> State.

Definition skip : Handler := fun st => st.

Definition andThen (h k : Handler) : Handler := fun st => k (h st).

Local Notation "h >>> k" := (andThen h k) (at level 61, right associativity).

Definition setLanguage (v : string) : Handler := fun st =>
  mkState
    v (difficulty st) (exercises st) (currentIndex st) (isRecording st)
    (audioBlob st) (isProcessing st) (result st) (showResult st)
    (hasPlayedWord st) (isPlayingWord st) (mediaRecorderRef st)
    (audioChunksRef st) (alerts st).

Definition setExercises (v : list Exercise.t) : Handler := fun st =>
  mkState
    (language st) (difficulty st) v (currentIndex st) (isRecording st)
    (audioBlob st) (isProcessing st) (result st) (showResult st)
    (hasPlayedWord st) (isPlayingWord st) (mediaRecorderRef st)
    (audioChunksRef st) (alerts st).

Definition setCurrentIndex (v : Z) : Handler := fun st =>
  mkState
    (language st) (difficulty st) (exercises st) v (isRecording st)
    (audioBlob st) (isProcessing st) (result st) (showResult st)
    (hasPlayedWord st) (isPlayingWord st) (mediaRecorderRef st)
    (audioChunksRef st) (alerts st).

Definition setIsRecording (v : bool) : Handler := fun st =>
  mkState
    (language st) (difficulty st) (exercises st) (currentIndex st) v
    (audioBlob st) (isProcessing st) (result st) (showResult st)
    (hasPlayedWord st) (isPlayingWord st) (mediaRecorderRef st)
    (audioChunksRef st) (alerts st).

Definition setAudioBlob (v : option Blob) : Handler := fun st =>
  mkState
    (language st) (difficulty st) (exercises st) (currentIndex st)
    (isRecording st) v (isProcessing st) (result st) (showResult st)
    (hasPlayedWord st) (isPlayingWord st) (mediaRecorderRef st)
    (audioChunksRef st) (alerts st).

Definition setIsProcessing (v : bool) : Handler := fun st =>
  mkState
    (language st) (difficulty st) (exercises st) (currentIndex st)
    (isRecording st) (audioBlob st) v (result st) (showResult st)
    (hasPlayedWord st) (isPlayingWord st) (mediaRecorderRef st)
    (audioChunksRef st) (alerts st).

Definition setResult (v : option Feedback.t) : Handler := fun st =>
  mkState
    (language st) (difficulty st) (exercises st) (currentIndex st)
    (isRecording st) (audioBlob st) (isProcessing st) v (showResult st)
    (hasPlayedWord st) (isPlayingWord st) (mediaRecorderRef st)
    (audioChunksRef st) (alerts st).

Definition setShowResult (v : bool) : Handler := fun st =>
  mkState
    (language st) (difficulty st) (exercises st) (currentIndex st)
    (isRecording st) (audioBlob st) (isProcessing st) (result st) v
    (hasPlayedWord st) (isPlayingWord st) (mediaRecorderRef st)
    (audioChunksRef st) (alerts st).

Definition setHasPlayedWord (v : bool) : Handler := fun st =>
  mkState
    (language st) (difficulty st) (exercises st) (currentIndex st)
    (isRecording st) (audioBlob st) (isProcessing st) (result st)
    (showResult st) v (isPlayingWord st) (mediaRecorderRef st)
    (audioChunksRef st) (alerts st).

Definition setIsPlayingWord (v : bool) : Handler := fun st =>
  mkState
    (language st) (difficulty st) (exercises st) (currentIndex st)
    (isRecording st) (audioBlob st) (isProcessing st) (result st)
    (showResult st) (hasPlayedWord st) v (mediaRecorderRef st)
    (audioChunksRef st) (alerts st).

Definition setMediaRecorderRef (v : bool) : Handler := fun st =>
  mkState
    (language st) (difficulty st) (exercises st) (currentIndex st)
    (isRecording st) (audioBlob st) (isProcessing st) (result st)
    (showResult st) (hasPlayedWord st) (isPlayingWord st) v
    (audioChunksRef st) (alerts st).

(** A write to [audioChunksRef.current], a ref shared by all renders. *)
Definition setAudioChunksRef (f : list Z -> list Z) : Handler := fun st =>
  mkState
    (language st) (difficulty st) (exercises st) (currentIndex st)
    (isRecording st) (audioBlob st) (isProcessing st) (result st)
    (showResult st) (hasPlayedWord st) (isPlayingWord st)
    (mediaRecorderRef st) (f (audioChunksRef st)) (alerts st).

Definition alert (msg : string) : Handler := fun st =>
  mkState
    (language st) (difficulty st) (exercises st) (currentIndex st)
    (isRecording st) (audioBlob st) (isProcessing st) (result st)
    (showResult st) (hasPlayedWord st) (isPlayingWord st)
    (mediaRecorderRef st) (audioChunksRef st) (alerts st ++ [msg]).

(** ** The handlers (lines 85-195) *)

Definition resetExercise : Handler :=
  setAudioBlob None >>>
  setResult None >>>
  setShowResult false >>>
  setHasPlayedWord false >>>
  setIsPlayingWord false.

(** The effect on [language, difficulty] (lines 85-89). *)
Definition exercisesEffect (r : State) : Handler :=
  setExercises
    match mockExercises (language r) with
    | Some found => found
    | None => mockExercises_en
    end >>>
  setCurrentIndex 0 >>>
  resetExercise.

(** [playWord]; [played] tells whether the speech request and the start
    of the playback succeeded.  [exercises[currentIndex].target_text] is
    read inside the [try], so a missing exercise ends in the [catch]. *)
Definition playWord (r : State) (played : bool) : Handler :=
  setIsPlayingWord true >>>
  match at_index (exercises r) (currentIndex r) with
  | Some _ =>
      if played then skip
      else setIsPlayingWord false >>> setHasPlayedWord true
  | None => setIsPlayingWord false >>> setHasPlayedWord true
  end.

(** [audio.onended]. *)
Definition wordEnded : Handler :=
  setIsPlayingWord false >>>
  setHasPlayedWord true.

Definition startRecording (granted : bool) : Handler :=
  if granted then
    setMediaRecorderRef true >>>
    setAudioChunksRef (fun _ => []) >>>
    setIsRecording true
  else
    alert "Could not access microphone. Please check permissions.".

(** [mediaRecorder.ondataavailable] for a chunk of the given size. *)
Definition dataAvailable (size : Z) : Handler :=
  if 0 <? size then setAudioChunksRef (fun chunks => (chunks ++ [size])%list)
  else skip.

(** [mediaRecorder.onstop]: the blob is built from the chunks the ref
    holds at that moment. *)
Definition recorderStopped : Handler := fun st =>
  setAudioBlob (Some (audioChunksRef st)) st.

Definition stopRecording (r : State) : Handler :=
  if mediaRecorderRef r && isRecording r then setIsRecording false else skip.

(** [processAudio]; [reply] is what the feedback request resolved to.
    [exercises[currentIndex].target_text] is read before the [try]: with
    no exercise at the index the handler throws there and goes no
    further. *)
Definition processAudio (r : State) (reply : option Feedback.t) : Handler :=
  match audioBlob r with
  | None => skip
  | Some _ =>
      setIsProcessing true >>>
      match at_index (exercises r) (currentIndex r) with
      | None => skip
      | Some _ =>
          match reply with
          | Some data =>
              setResult (Some data) >>>
              setShowResult true
          | None =>
              alert "Error processing your recording. Please try again."
          end >>>
          setIsProcessing false
      end
  end.

Definition nextExercise (r : State) : Handler :=
  if currentIndex r <? Z.of_nat (length (exercises r)) - 1 then
    setCurrentIndex (currentIndex r + 1) >>>
    resetExercise
  else skip.

Definition tryAgain : Handler := resetExercise.

(** ** The event loop *)
Inductive Event : Type :=
| Mount
| SelectLanguage (v : string)
| ClickPlayWord (played : bool)
| WordEnded
| ClickRecord (granted : bool)
| DataAvailable (size : Z)
| ClickStop
| RecorderStopped
| ClickSubmit (reply : option Feedback.t)
| ClickNext
| ClickTryAgain.

Definition dispatch (e : Event) : Handler := fun st =>
  match e with
  | Mount => exercisesEffect st st
  | SelectLanguage v =>
      (* the effect runs when the language has changed *)
      if (v =? language st)%string then st
      else
        let st' := setLanguage v st in
        exercisesEffect st' st'
  | ClickPlayWord played => playWord st played st
  | WordEnded => wordEnded st
  | ClickRecord granted => startRecording granted st
  | DataAvailable size => dataAvailable size st
  | ClickStop => stopRecording st st
  | RecorderStopped => recorderStopped st
  | ClickSubmit reply => processAudio st reply st
  | ClickNext => nextExercise st st
  | ClickTryAgain => tryAgain st
  end.

Definition run (events : list Event) (st : State) : State :=
  fold_left (fun s e => dispatch e s) events st.

(** A recording from the click on record to the recorder's stop event,
    with the chunks the recorder delivered. *)
Definition recording (sizes : list Z) : list Event :=
  ([ClickRecord true] ++ map DataAvailable sizes
   ++ [ClickStop; RecorderStopped])%list.

(** The index names an exercise of a list of ten. *)
Definition indexInBounds (st : State) : Prop :=
  length (exercises st) = 10%nat /\ 0 <= currentIndex st < 10.

End PictureTherapy.

(** * The HTTP client and the login (frontend/src/services/api.ts and
    the [AuthContext] of frontend/src/components/ProtectedRoute.tsx)

    [localStorage] is a finite map from keys to strings, here the function
    [getItem]. *)

Module Api.

Definition Storage : Type := string -> option string.

Definition emptyStorage : Storage := fun _ => None.

Definition getItem (storage : Storage) (key : string) : option string :=
  storage key.

Definition setItem (key value : string) (storage : Storage) : Storage :=
  fun k => if (k =? key)%string then Some value else storage k.

Definition removeItem (key : string) (storage : Storage) : Storage :=
  fun k => if (k =? key)%string then None else storage k.

(** What the interceptors touch of the browser: the storage and
    [window.location.href]. *)
Record Browser : Type := mkBrowser {
  localStorage : Storage;
  href : string
}.

(** The header of a request that the interceptor may set. *)
Record RequestConfig : Type := mkRequestConfig {
  Authorization : option string
}.

(** The request interceptor (api.ts, lines 15-26): add the auth token. *)
Definition requestInterceptor (storage : Storage) (config : RequestConfig)
  : RequestConfig :=
  if truthy (getItem storage "token") then
    match getItem storage "token" with
    | Some token => mkRequestConfig (Some ("Bearer " ++ token)%string)
    | None => config
    end
  else config.

(** The error branch of the response interceptor (api.ts, lines 29-40);
    [status] is [error.response?.status].  The error is rejected to the
    caller in every case. *)
Definition responseError (status : option Z) (browser : Browser) : Browser :=
  match status with
  | Some 401 =>
      (* Unauthorized - redirect to login *)
      mkBrowser
        (removeItem "user" (removeItem "token" (localStorage browser)))
        "/login"
  | _ => browser
  end.

(** [authAPI.register] and [authAPI.login] (api.ts, lines 45-63) once the
    request has resolved with [response.data.access_token]. *)
Definition storeAccessToken (access_token : option string)
    (storage : Storage) : Storage :=
  if truthy access_token then
    match access_token with
    | Some token => setItem "token" token storage
    | None => storage
    end
  else storage.

(** [authAPI.logout] (api.ts, lines 65-68). *)
Definition logout (storage : Storage) : Storage :=
  removeItem "user" (removeItem "token" storage).

End Api.

Module Auth.

Record User : Type := mkUser {
  id : string;
  name : string;
  email : string;
  userType : string;
  language : option string;
  severityLevel : option string;
  wabScore : option Q
}.

(** The body of the reply of [/api/db/login], as far as it is read. *)
Record UserData : Type := mkUserData {
  user_id : string;
  user_name : string;
  user_email : string
}.

(** The body of the reply of [/api/db/users/<id>], as far as it is read. *)
Record ProfileData : Type := mkProfileData {
  severity_level : option string;
  wab_score : option Q
}.

(** How the login request ended: [fetch] threw, the response was not ok
    (with its [detail], if any), or it was ok. *)
Inductive LoginReply : Type :=
| LoginThrew (message : string)
| LoginNotOk (detail : option string)
| LoginOk (userData : UserData).

(** How the profile request ended: it threw, the response was not ok, or
    it was ok. *)
Inductive ProfileReply : Type :=
| ProfileThrew
| ProfileNotOk
| ProfileOk (profileData : ProfileData).

(** The provider: the [user] and [loading] cells and the storage. *)
Record State : Type := mkState {
  user : option User;
  loading : bool;
  localStorage : Api.Storage
}.

(** [login] (lines 80-125 of the context); [stringify] is
    [JSON.stringify] on a user.  The result is the new state and the
    message of the error thrown to the caller, if one is thrown. *)
Definition login (stringify : User -> string)
    (reply : LoginReply) (profile : ProfileReply) (st : State)
  : State * option string :=
  match reply with
  | LoginThrew message => (st, Some message)
  | LoginNotOk detail =>
      (st, Some (if truthy detail
                 then match detail with Some d => d | None => "Login failed" end
                 else "Login failed"))
  | LoginOk userData =>
      let authenticatedUser :=
        match profile with
        | ProfileOk profileData =>
            mkUser (user_id userData) (user_name userData)
              (user_email userData) "patient" (Some "en")
              (severity_level profileData) (wab_score profileData)
        | _ =>
            mkUser (user_id userData) (user_name userData)
              (user_email userData) "patient" (Some "en") None None
        end in
      (mkState (Some authenticatedUser) (loading st)
         (Api.setItem "token" ("jwt-token-" ++ user_id userData)%string
            (Api.setItem "userId" (user_id userData)
               (Api.setItem "user" (stringify authenticatedUser)
                  (localStorage st)))),
       None)
  end.

(** [logout] (lines 169-173 of the context). *)
Definition logout (st : State) : State :=
  mkState None (loading st)
    (Api.removeItem "token" (Api.removeItem "user" (localStorage st))).

(** What [ProtectedRoute] renders (ProtectedRoute.tsx, lines 10-30);
    [required] is its [userType] prop. *)
Inductive Rendered : Type :=
| Spinner
| NavigateTo (route : string)
| Children.

Definition ProtectedRoute (st : State) (required : option string)
  : Rendered :=
  if loading st then Spinner
  else
    match user st with
    | None => NavigateTo "/login"
    | Some u =>
        match required with
        | Some needed =>
            if truthy required && negb (userType u =? needed)%string
            then NavigateTo "/"
            else Children
        | None => Children
        end
    end.

(** [user?.wabScore || 50], the initial [userWabScore] of the session
    page (part_004, line 578). *)
Definition initialWabScore (u : option User) : Q :=
  match u with
  | Some u' =>
      match wabScore u' with
      | Some w => if Qeq_bool w 0 then 50%Q else w
      | None => 50%Q
      end
  | None => 50%Q
  end.

End Auth.

(** * The aggregator step by step *)

(** The contract of the aggregator in the spec's words (section 4.1), on a
    pair of the running mean and the attempt count:
    [newMean = (oldMean * oldCount + newScore) / (oldCount + 1)]. *)
Definition meanStep (state : Q * Z) (score : Q) : Q * Z :=
  (((fst state * inject_Z (snd state) + score)
    / inject_Z (snd state + 1))%Q,
   snd state + 1).

(** The step applied to a sequence of scores, in their order, from the
    mean 0 and the count 0 of a fresh session. *)
Definition runningMean (scores : list Q) : Q * Z :=
  fold_left meanStep scores (0%Q, 0).

(** The [accuracy] and [completed] fields of the updater of lines 757-762
    in the number type of the program itself, IEEE 754 binary64: every
    operation rounds to the nearest double. *)
Module Binary64.

Import PrimFloat.

Definition meanStep (state : float * float) (score : float)
  : float * float :=
  (((fst state * snd state + score) / (snd state + 1))%float,
   (snd state + 1)%float).

Definition runningMean (scores : list float) : float :=
  fst (fold_left meanStep scores (0%float, 0%float)).


End Binary64.

(** * Properties *)

(** ** Reading the store after a handler *)

Ltac unfold_setters :=
  cbv beta iota delta
    [andThen skip setSessionId setSessionLanguage setIsRecording
     setIsProcessing setIsLoadingSentences setCurrentSentence
     setSessionResult setAvailableSentences setSentenceIndex
     setSessionProgress setCurrentDifficulty setUserWabScore
     setMediaRecorderRef alert navigate setLanguage
     sessionId sessionLanguage isRecording isProcessing isLoadingSentences
     currentSentence sessionResult availableSentences sentenceIndex
     sessionProgress currentDifficulty userWabScore mediaRecorderRef
     alerts location contextLanguage].

(** Evaluates the setters of the goal on the store [st], by value, so that
    every intermediate store is built once. *)
Ltac on_store st := destruct st; unfold_setters.

Lemma Difficulty_eqb_eq (a b : Difficulty) :
  Difficulty_eqb a b = true <-> a = b.
Proof. destruct a, b; simpl; split; congruence. Qed.

Lemma Difficulty_eqb_neq (a b : Difficulty) :
  Difficulty_eqb a b = false <-> a <> b.
Proof. destruct a, b; simpl; split; congruence. Qed.

Lemma canScore_guard (r : State) :
  canScore r ->
  isNull (currentSentence r) || negb (truthy (sessionId r)) = false.
Proof. intros [-> ->]. reflexivity. Qed.

Lemma processAudio_scored (r : State) (result : SessionResult.t) (st : State) :
  canScore r ->
  sessionProgress (processAudio r (Some result) st)
  = recordAttempt result (sessionProgress st).
Proof.
  intros G. unfold processAudio. rewrite (canScore_guard r G).
  destruct (negb _); on_store st; reflexivity.
Qed.

Lemma processAudio_keeps_guard (r : State) (reply : option SessionResult.t)
    (st : State) :
  currentSentence (processAudio r reply st) = currentSentence st /\
  sessionId (processAudio r reply st) = sessionId st.
Proof.
  unfold processAudio.
  destruct (isNull _ || _); [split; reflexivity|].
  destruct reply as [result|]; [destruct (negb _)|];
    on_store st; split; reflexivity.
Qed.

(** ** The classifier *)

Local Open Scope Q_scope.

(** C1. The classifier maps a score to a tier by the fixed thresholds 76
    and 51, each inclusive on its lower bound: a score of at least 76 is
    hard, a score from 51 up to but excluding 76 is medium, a score below
    51 is easy; in particular 51 is medium, 50.999 is easy, 76 is hard and
    75.999 is medium. *)
Theorem classifier_thresholds (s : Q) :
  (76 <= s -> getDifficultyFromWabScore s = hard) /\
  (51 <= s /\ s < 76 -> getDifficultyFromWabScore s = medium) /\
  (s < 51 -> getDifficultyFromWabScore s = easy) /\
  getDifficultyFromWabScore 51 = medium /\
  getDifficultyFromWabScore 50.999 = easy /\
  getDifficultyFromWabScore 76 = hard /\
  getDifficultyFromWabScore 75.999 = medium.
Proof.
  unfold getDifficultyFromWabScore.
  repeat split; try reflexivity.
  - intros H. apply Qle_bool_iff in H. now rewrite H.
  - intros [H1 H2].
    destruct (Qle_bool 76 s) eqn:E76.
    + apply Qle_bool_iff in E76. lra.
    + apply Qle_bool_iff in H1. now rewrite H1.
  - intros H.
    destruct (Qle_bool 76 s) eqn:E76; [apply Qle_bool_iff in E76; lra|].
    destruct (Qle_bool 51 s) eqn:E51; [apply Qle_bool_iff in E51; lra|].
    reflexivity.
Qed.

Lemma classifier_thresholds_witness :
  getDifficultyFromWabScore 90 = hard /\
  getDifficultyFromWabScore 60.5 = medium /\
  getDifficultyFromWabScore 12 = easy.
Proof.
  split; [|split].
  - apply (proj1 (classifier_thresholds 90)). lra.
  - apply (proj1 (proj2 (classifier_thresholds 60.5))). split; lra.
  - apply (proj1 (proj2 (proj2 (classifier_thresholds 12)))). lra.
Defined.

(** C8. The classifier is deterministic and monotone: equal scores get the
    same tier, and for scores [a <= b] the tier of [a] is at most the tier
    of [b] in the order easy < medium < hard. *)
Theorem classifier_monotone (a b : Q) :
  (a == b -> getDifficultyFromWabScore a = getDifficultyFromWabScore b) /\
  (a <= b ->
   tier_le (getDifficultyFromWabScore a) (getDifficultyFromWabScore b)).
Proof.
  unfold tier_le, getDifficultyFromWabScore. split.
  - intros Hab.
    rewrite (Qleb_comp 76 76 (Qeq_refl 76) a b Hab).
    rewrite (Qleb_comp 51 51 (Qeq_refl 51) a b Hab).
    reflexivity.
  - intros Hab.
    destruct (Qle_bool 76 a) eqn:A76; destruct (Qle_bool 76 b) eqn:B76;
      destruct (Qle_bool 51 a) eqn:A51; destruct (Qle_bool 51 b) eqn:B51;
      simpl; try lia; exfalso;
      repeat match goal with
      | H : Qle_bool _ _ = true |- _ => apply Qle_bool_iff in H
      | H : Qle_bool ?x ?y = false |- _ =>
          assert (~ x <= y) by (rewrite <- Qle_bool_iff; congruence);
          clear H
      end; lra.
Qed.

Lemma classifier_monotone_witness :
  getDifficultyFromWabScore (1 # 2) = getDifficultyFromWabScore (2 # 4) /\
  tier_le (getDifficultyFromWabScore 40) (getDifficultyFromWabScore 80).
Proof.
  split.
  - apply (proj1 (classifier_monotone (1 # 2) (2 # 4))). reflexivity.
  - apply (proj2 (classifier_monotone 40 80)). lra.
Defined.

(** ** The aggregator *)

(** C2. One aggregation step: for every reply of the scoring service and
    every progress held by the store, the attempt handler leaves a progress
    whose attempt count is the old count plus one and whose running mean is
    (oldMean * oldCount + newScore) / (oldCount + 1). *)
Theorem aggregation_step (r st : State) (result : SessionResult.t) :
  canScore r ->
  let old := sessionProgress st in
  let new := sessionProgress (processAudio r (Some result) st) in
  Progress.completed new = (Progress.completed old + 1)%Z /\
  Progress.accuracy new ==
    (Progress.accuracy old * inject_Z (Progress.completed old)
     + SessionResult.accuracy result)
    / (inject_Z (Progress.completed old) + 1).
Proof.
  intros G old new. subst new.
  rewrite (processAudio_scored r result st G). fold old.
  split; [reflexivity|].
  unfold recordAttempt; cbn [Progress.accuracy].
  rewrite inject_Z_plus. reflexivity.
Qed.

Lemma aggregation_step_witness :
  let new :=
    sessionProgress (processAudio thirdAttempt (Some (scored 90 60))
                       thirdAttempt) in
  Progress.completed new = 3%Z /\
  Progress.accuracy new == (70 * 2 + 90) / (2 + 1).
Proof.
  apply (aggregation_step thirdAttempt thirdAttempt (scored 90 60)).
  split; reflexivity.
Defined.

(** C3. When the scoring call of an attempt fails, the handler shows the
    error result and an alert and leaves the progress as it was: the
    attempt count and the running mean are unchanged, and so are the
    sentence on screen and the session id, so the same exercise can be
    attempted again. *)
Theorem scoring_failure_keeps_progress (r st : State) :
  canScore r ->
  let st' := processAudio r None st in
  sessionProgress st' = sessionProgress st /\
  sessionResult st' = Some errorResult /\
  alerts st' =
    (alerts st ++
     ["Error processing audio. Please check your microphone and internet connection, then try again."])%list /\
  isProcessing st' = false /\
  currentSentence st' = currentSentence st /\
  sentenceIndex st' = sentenceIndex st /\
  sessionId st' = sessionId st /\
  currentDifficulty st' = currentDifficulty st.
Proof.
  intros G st'. subst st'. unfold processAudio.
  rewrite (canScore_guard r G).
  on_store st. repeat split; reflexivity.
Qed.

Lemma scoring_failure_keeps_progress_witness :
  let st' := processAudio thirdAttempt None thirdAttempt in
  Progress.completed (sessionProgress st') = 2%Z /\
  Progress.accuracy (sessionProgress st') = 70 /\
  currentSentence st' = Some helloSentence /\
  canScore st'.
Proof.
  pose proof (scoring_failure_keeps_progress thirdAttempt thirdAttempt
                (conj eq_refl eq_refl)) as H.
  cbv zeta in H.
  destruct H as (Hp & _ & _ & _ & Hs & _ & Hid & _).
  cbv zeta. unfold canScore. rewrite Hp, Hs, Hid.
  repeat split; reflexivity.
Defined.

(** ** Tier changes *)

Local Open Scope Z_scope.

Lemma atQuota_test (r : State) :
  atQuota r ->
  (Progress.current (sessionProgress r) <? Progress.total (sessionProgress r))
  = false.
Proof. unfold atQuota. intros H. apply Z.ltb_ge. exact H. Qed.

(** The tier the store holds after a scored attempt handled by a closure of
    render [r]. *)
Lemma processAudio_tier (r st : State) (result : SessionResult.t) :
  canScore r ->
  let newDifficulty :=
    getDifficultyFromWabScore
      ((Progress.totalWabScore (sessionProgress r)
        + SessionResult.wab_score result)
       / inject_Z (Progress.completed (sessionProgress r) + 1))%Q in
  currentDifficulty (processAudio r (Some result) st)
  = if Difficulty_eqb newDifficulty (currentDifficulty r)
    then currentDifficulty st else newDifficulty.
Proof.
  intros G newDifficulty. unfold processAudio.
  rewrite (canScore_guard r G). fold newDifficulty.
  destruct (Difficulty_eqb newDifficulty (currentDifficulty r));
    cbn [negb]; on_store st; reflexivity.
Qed.

(** Without a confirmation [nextSentence] never writes the tier. *)
Lemma nextSentence_unconfirmed_tier (r st : State)
    (completion : option CompletionResult)
    (start : option StartResponse) (sentences : option (list Sentence.t)) :
  currentDifficulty (nextSentence r completion false start sentences st)
  = currentDifficulty st.
Proof.
  unfold nextSentence, sentencesSettled, loadFallbackSentences.
  destruct (_ <? _).
  - destruct (_ <? _)%nat.
    + on_store st; reflexivity.
    + destruct sentences as [[|s l]|];
        [| |destruct (mockSentences _ _)]; on_store st; reflexivity.
  - destruct (truthy _); [|on_store st; reflexivity].
    destruct completion as [c|]; [|on_store st; reflexivity].
    destruct (offeredTier r c); [on_store st; reflexivity|].
    destruct (progression_message c) as [m|]; [destruct (negb _)|];
      on_store st; reflexivity.
Qed.

(** The tier the store holds after a confirmed transition. *)
Lemma nextSentence_confirmed_tier (r st : State) (c : CompletionResult)
    (d : Difficulty) (start : option StartResponse)
    (sentences : option (list Sentence.t)) :
  atQuota r -> truthy (sessionId r) = true -> offeredTier r c = Some d ->
  currentDifficulty (nextSentence r (Some c) true start sentences st)
  = match start with
    | Some response =>
        match current_difficulty response with
        | Some d' => d'
        | None => d
        end
    | None => d
    end.
Proof.
  intros Hquota Hid Hoffer.
  unfold nextSentence, initializeSession, loadSentencesFromAPI,
    sentencesSettled, loadFallbackSentences.
  rewrite (atQuota_test r Hquota), Hid, Hoffer.
  destruct start as [[sid [d'|]]|]; cbn [session_id current_difficulty];
    (destruct sentences as [[|s l]|]; [| |destruct (mockSentences _ _)]);
    on_store st; reflexivity.
Qed.

Lemma offeredTier_spec (r : State) (c : CompletionResult) (d : Difficulty) :
  offeredTier r c = Some d <->
  next_difficulty c = Some d /\ d <> currentDifficulty r.
Proof.
  unfold offeredTier. destruct (next_difficulty c) as [d0|].
  - destruct (Difficulty_eqb d0 (currentDifficulty r)) eqn:E.
    + apply Difficulty_eqb_eq in E. split; [discriminate|].
      intros [H1 H2]. congruence.
    + apply Difficulty_eqb_neq in E. split.
      * intros H. injection H as <-. auto.
      * intros [H1 _]. exact H1.
  - split; [discriminate|]. intros [H _]. discriminate.
Qed.

(** A scored attempt does move the tier unasked: with two attempts scored
    and a WAB-AQ total of 80, a third attempt with WAB-AQ score 100 gives
    the average 60, which classifies as medium, and the handler stores
    medium over easy; [processAudio] asks nothing. *)
Lemma attempt_moves_tier_unasked :
  let st' := processAudio thirdAttempt (Some (scored 90 100)) thirdAttempt in
  canScore thirdAttempt /\
  getDifficultyFromWabScore ((80 + 100) / inject_Z (2 + 1)) = medium /\
  currentDifficulty thirdAttempt = easy /\
  currentDifficulty st' = medium /\
  currentDifficulty st' <> currentDifficulty thirdAttempt.
Proof.
  cbv zeta. repeat split; try reflexivity.
  vm_compute. discriminate.
Qed.

(** C4 (amended). A scored attempt stores the tier classified from the
    session's average WAB-AQ score at once, without asking; a confirmation
    is asked only for the tier reported at completion, and without it
    [nextSentence] leaves the tier as it is. *)
Theorem attempt_stores_classified_tier (st : State)
    (result : SessionResult.t) :
  canScore st ->
  currentDifficulty (processAudio st (Some result) st)
  = getDifficultyFromWabScore
      ((Progress.totalWabScore (sessionProgress st)
        + SessionResult.wab_score result)
       / inject_Z (Progress.completed (sessionProgress st) + 1))%Q
  /\ forall completion start sentences,
       currentDifficulty (nextSentence st completion false start sentences st)
       = currentDifficulty st.
Proof.
  intros G. split.
  - rewrite (processAudio_tier st st result G). cbv zeta.
    destruct (Difficulty_eqb _ _) eqn:E; [|reflexivity].
    apply Difficulty_eqb_eq in E. symmetry. exact E.
  - intros. apply nextSentence_unconfirmed_tier.
Qed.

Lemma attempt_stores_classified_tier_witness :
  currentDifficulty
    (processAudio thirdAttempt (Some (scored 90 100)) thirdAttempt)
  = getDifficultyFromWabScore ((80 + 100) / inject_Z (2 + 1))%Q.
Proof.
  apply (proj1 (attempt_stores_classified_tier thirdAttempt (scored 90 100)
                  (conj eq_refl eq_refl))).
Defined.

(** A server-reported tier that differs is not always adopted: at the
    quota, with local tier easy (mean 80) and a reply that reports medium,
    a declined prompt leaves the tier at easy. *)
Lemma declined_report_not_adopted :
  let st' := nextSentence lastSentence (Some reportsMedium) false None None
               lastSentence in
  atQuota lastSentence /\
  next_difficulty reportsMedium = Some medium /\
  currentDifficulty lastSentence = easy /\
  currentDifficulty st' = easy /\
  currentDifficulty st' <> medium.
Proof.
  cbv zeta. repeat split; try reflexivity.
  - vm_compute. discriminate.
  - vm_compute. discriminate.
Qed.

(** C5 (amended). When the reply of [completeSession] reports a tier that
    differs from the current one and the caller confirms the prompt, the
    controller adopts the server-reported tier: the store ends with the tier
    named by the [startSession] reply of the re-initialisation if it names
    one, and with the reported [next_difficulty] otherwise. *)
Theorem confirmed_report_adopted (r st : State) (c : CompletionResult)
    (d : Difficulty) (start : option StartResponse)
    (sentences : option (list Sentence.t)) :
  atQuota r -> truthy (sessionId r) = true ->
  next_difficulty c = Some d -> d <> currentDifficulty r ->
  currentDifficulty (nextSentence r (Some c) true start sentences st)
  = match start with
    | Some response =>
        match current_difficulty response with
        | Some d' => d'
        | None => d
        end
    | None => d
    end.
Proof.
  intros Hquota Hid Hnext Hdiff.
  apply nextSentence_confirmed_tier; try assumption.
  apply offeredTier_spec. split; assumption.
Qed.

Lemma confirmed_report_adopted_witness :
  currentDifficulty
    (nextSentence lastSentence (Some reportsMedium) true
       (Some (mkStartResponse "session-2" None)) None lastSentence)
  = medium.
Proof.
  apply (confirmed_report_adopted lastSentence lastSentence reportsMedium
           medium (Some (mkStartResponse "session-2" None)) None).
  - vm_compute. discriminate.
  - reflexivity.
  - reflexivity.
  - discriminate.
Defined.

(** C9. When the caller declines the transition offered at completion, the
    tier of the store is the one held before the offer; the progress is
    untouched as well and the page leaves for the dashboard. *)
Theorem declined_transition_keeps_tier (r st : State) (c : CompletionResult)
    (d : Difficulty) (start : option StartResponse)
    (sentences : option (list Sentence.t)) :
  atQuota r -> truthy (sessionId r) = true ->
  next_difficulty c = Some d -> d <> currentDifficulty r ->
  let st' := nextSentence r (Some c) false start sentences st in
  currentDifficulty st' = currentDifficulty st /\
  sessionProgress st' = sessionProgress st /\
  location st' = Some "/patient/dashboard".
Proof.
  intros Hquota Hid Hnext Hdiff st'. subst st'.
  assert (Hoffer : offeredTier r c = Some d)
    by (apply offeredTier_spec; split; assumption).
  unfold nextSentence.
  rewrite (atQuota_test r Hquota), Hid, Hoffer.
  on_store st. repeat split; reflexivity.
Qed.

Lemma declined_transition_keeps_tier_witness :
  let st' := nextSentence lastSentence (Some reportsMedium) false None None
               lastSentence in
  currentDifficulty st' = easy /\
  sessionProgress st' = sessionProgress lastSentence /\
  location st' = Some "/patient/dashboard".
Proof.
  apply (declined_transition_keeps_tier lastSentence lastSentence
           reportsMedium medium None None).
  - vm_compute. discriminate.
  - reflexivity.
  - reflexivity.
  - discriminate.
Defined.

(** ** The sentence counter *)

Lemma initializeSession_progress (start : option StartResponse) (st : State) :
  sessionProgress (initializeSession start st) = sessionProgress st.
Proof.
  unfold initializeSession.
  destruct start as [[sid [d|]]|]; on_store st; reflexivity.
Qed.

Lemma sentencesSettled_progress (r : State)
    (sentences : option (list Sentence.t)) (st : State) :
  sessionProgress (sentencesSettled r sentences st) = sessionProgress st.
Proof.
  unfold sentencesSettled, loadFallbackSentences.
  destruct sentences as [[|s l]|]; [| |destruct (mockSentences _ _)];
    on_store st; reflexivity.
Qed.

Lemma processAudio_progress (r : State) (reply : option SessionResult.t)
    (st : State) :
  progressStep (sessionProgress st)
    (sessionProgress (processAudio r reply st)).
Proof.
  unfold processAudio.
  destruct (isNull _ || _); [apply progress_kept; reflexivity|].
  destruct reply as [result|].
  - apply (progress_scored _ _ result).
    destruct (negb _); on_store st; reflexivity.
  - apply progress_kept. on_store st; reflexivity.
Qed.

Lemma nextSentence_progress (st : State)
    (completion : option CompletionResult) (confirmed : bool)
    (start : option StartResponse) (sentences : option (list Sentence.t)) :
  progressStep (sessionProgress st)
    (sessionProgress
       (nextSentence st completion confirmed start sentences st)).
Proof.
  unfold nextSentence.
  destruct (_ <? _) eqn:Hlt.
  - apply Z.ltb_lt in Hlt.
    apply progress_advanced; [exact Hlt|].
    destruct (_ <? _)%nat;
      [|unfold andThen; rewrite sentencesSettled_progress];
      on_store st; reflexivity.
  - destruct (truthy _);
      [|apply progress_kept; on_store st; reflexivity].
    destruct completion as [c|];
      [|apply progress_kept; on_store st; reflexivity].
    destruct (offeredTier st c) as [d|].
    + destruct confirmed;
        [|apply progress_kept; on_store st; reflexivity].
      apply progress_reset.
      unfold loadSentencesFromAPI. cbv beta delta [andThen].
      rewrite sentencesSettled_progress.
      unfold setIsLoadingSentences; cbn [sessionProgress].
      rewrite initializeSession_progress.
      on_store st; reflexivity.
    + destruct (progression_message c) as [m|]; [destruct (negb _)|];
        apply progress_kept; on_store st; reflexivity.
Qed.

Lemma dispatch_progress (e : Event) (st : State) :
  progressStep (sessionProgress st) (sessionProgress (dispatch e st)).
Proof.
  destruct e as [start|sentences|granted|reply|completion confirmed start
                 sentences|newLanguage]; unfold dispatch.
  - apply progress_kept. apply initializeSession_progress.
  - destruct (truthy _); [|apply progress_kept; reflexivity].
    unfold loadSentencesFromAPI, andThen.
    apply progress_kept. rewrite sentencesSettled_progress.
    on_store st; reflexivity.
  - unfold startRecording.
    destruct granted; apply progress_kept; on_store st; reflexivity.
  - destruct (_ && _) eqn:E; [|apply progress_kept; reflexivity].
    unfold andThen, stopRecording. rewrite E.
    apply (processAudio_progress st reply (setIsRecording false st)).
  - apply nextSentence_progress.
  - unfold changeLanguage.
    apply progress_kept; on_store st; reflexivity.
Qed.

Lemma progressStep_withinQuota (p p' : Progress.t) :
  progressStep p p' -> withinQuota p -> withinQuota p'.
Proof.
  unfold withinQuota.
  intros [Hk|Hlt Ha|result Hs|Hfresh] H; subst p'; cbn; lia.
Qed.

Lemma progressStep_completed_nonneg (p p' : Progress.t) :
  progressStep p p' ->
  0 <= Progress.completed p -> 0 <= Progress.completed p'.
Proof.
  intros [Hk|Hlt Ha|result Hs|Hfresh] H; subst p'; cbn; lia.
Qed.

Lemma run_withinQuota (events : list Event) (st : State) :
  withinQuota (sessionProgress st) ->
  withinQuota (sessionProgress (run events st)).
Proof.
  revert st. induction events as [|e events IH]; intros st H.
  - exact H.
  - cbn [run fold_left]. apply IH.
    apply (progressStep_withinQuota _ _ (dispatch_progress e st) H).
Qed.

(** The attempt count never goes below zero, so the divisors
    [completed + 1] of [processAudio] are at least 1. *)
Lemma run_completed_nonneg (events : list Event) (lang : string) (wab : Q) :
  0 <= Progress.completed
         (sessionProgress (run events (initialState lang wab))).
Proof.
  assert (H : 0 <= Progress.completed
                     (sessionProgress (initialState lang wab)))
    by (cbn; lia).
  revert H. generalize (initialState lang wab) as st.
  induction events as [|e events IH]; intros st H.
  - exact H.
  - cbn [run fold_left]. apply IH.
    apply (progressStep_completed_nonneg _ _ (dispatch_progress e st) H).
Qed.

(** C10. The sentence counter stays within the quota: a session starts
    with [current = 1] and [total = 10], and after every sequence of events
    [1 <= current <= total]; an event changes the counter only by adding
    one while [current < total] or by starting a fresh session at 1 of
    10. *)
Theorem counter_within_quota (lang : string) (wab : Q)
    (events : list Event) :
  let p0 := sessionProgress (initialState lang wab) in
  let p := sessionProgress (run events (initialState lang wab)) in
  (Progress.current p0 = 1 /\ Progress.total p0 = 10) /\
  1 <= Progress.current p <= Progress.total p /\
  forall e st,
    progressStep (sessionProgress st) (sessionProgress (dispatch e st)).
Proof.
  cbv zeta. split; [split; reflexivity|]. split.
  - apply (run_withinQuota events (initialState lang wab)).
    unfold withinQuota. cbn. lia.
  - intros e st. apply dispatch_progress.
Qed.

(** ** A whole session

    The scenario of section 8: quota 10, every attempt scored 90.  After
    the tenth attempt the counter is at the quota, ten attempts are
    counted, the mean is 90 and the tier is hard. *)

Example session_of_ten_at_90 :
  let st := run (sessionOfTen (scored 90 90)) (initialState "en" 50) in
  Progress.current (sessionProgress st) = 10 /\
  Progress.completed (sessionProgress st) = 10 /\
  (Progress.accuracy (sessionProgress st) == 90)%Q /\
  currentDifficulty st = hard /\
  location st = None.
Proof. vm_compute. repeat split. Qed.

(** ** Clamping and the mean of a session *)

Local Open Scope Q_scope.

Lemma clampScore_inRange (s : Q) : inRange s -> clampScore s == s.
Proof.
  intros [H0 H100]. unfold clampScore.
  rewrite (Q.max_r 0 s H0). apply Q.min_r. exact H100.
Qed.

Lemma canScore_processAudio (st : State) (reply : option SessionResult.t) :
  canScore st -> canScore (processAudio st reply st).
Proof.
  unfold canScore.
  destruct (processAudio_keeps_guard st reply st) as [-> ->]. auto.
Qed.

Lemma attempts_cons (result : SessionResult.t) (rs : list SessionResult.t)
    (st : State) :
  attempts (result :: rs) st = attempts rs (processAudio st (Some result) st).
Proof. reflexivity. Qed.

(** A score is not clamped before it is aggregated: a first attempt
    scored 150 leaves the running mean at 150, not at the clamped 100. *)
Lemma score_150_not_clamped :
  let new :=
    sessionProgress (processAudio firstAttempt (Some (scored 150 60))
                       firstAttempt) in
  clampScore 150 == 100 /\
  Progress.completed new = 1%Z /\
  Progress.accuracy new == 150 /\
  ~ Progress.accuracy new == (0 * 0 + clampScore 150) / (0 + 1).
Proof.
  cbv zeta. repeat split.
  intros H. vm_compute in H. discriminate.
Qed.

(** C6 (amended). A score is aggregated as it is received, neither clamped
    nor rejected: every reply is counted and enters the running mean with
    its own accuracy; the value aggregated equals min(100, max(0, s))
    when the score already lies in [0, 100]. *)
Theorem score_aggregated_as_received (r st : State)
    (result : SessionResult.t) :
  canScore r ->
  let s := SessionResult.accuracy result in
  let old := sessionProgress st in
  let new := sessionProgress (processAudio r (Some result) st) in
  Progress.completed new = (Progress.completed old + 1)%Z /\
  Progress.accuracy new ==
    (Progress.accuracy old * inject_Z (Progress.completed old) + s)
    / (inject_Z (Progress.completed old) + 1) /\
  (inRange s ->
   Progress.accuracy new ==
     (Progress.accuracy old * inject_Z (Progress.completed old)
      + clampScore s)
     / (inject_Z (Progress.completed old) + 1)).
Proof.
  intros G s old new. subst new.
  rewrite (processAudio_scored r result st G). fold old.
  unfold recordAttempt; cbn [Progress.completed Progress.accuracy].
  fold s. rewrite inject_Z_plus.
  split; [reflexivity|]. split; [reflexivity|].
  intros Hs. rewrite (clampScore_inRange s Hs). reflexivity.
Qed.

Lemma score_aggregated_as_received_witness :
  let new :=
    sessionProgress (processAudio thirdAttempt (Some (scored 90 60))
                       thirdAttempt) in
  Progress.accuracy new == (70 * 2 + clampScore 90) / (2 + 1).
Proof.
  cbv zeta.
  apply (score_aggregated_as_received thirdAttempt thirdAttempt
           (scored 90 60) (conj eq_refl eq_refl)).
  split; cbn; lra.
Defined.

(** * Further properties *)

(** ** Display of a result *)

Local Open Scope Q_scope.

Ltac decide_bands :=
  repeat match goal with
  | H : Qle_bool _ _ = true |- _ => apply Qle_bool_iff in H
  | H : Qle_bool ?x ?y = false |- _ =>
      assert (~ x <= y) by (rewrite <- Qle_bool_iff; congruence); clear H
  end.

(** X1. The label and the colour of an accuracy are cut at the same
    thresholds 90, 70 and 50, each inclusive below: from 90 on "Excellent"
    in green, from 70 on "Good" in yellow, from 50 on "Fair" in orange,
    below 50 "Needs Work" in red. *)
Theorem accuracy_label_and_color_agree (a : Q) :
  (90 <= a ->
   getAccuracyLabel a = "Excellent"%string /\
   getAccuracyColor a = "text-green-600"%string) /\
  (70 <= a /\ a < 90 ->
   getAccuracyLabel a = "Good"%string /\
   getAccuracyColor a = "text-yellow-600"%string) /\
  (50 <= a /\ a < 70 ->
   getAccuracyLabel a = "Fair"%string /\
   getAccuracyColor a = "text-orange-600"%string) /\
  (a < 50 ->
   getAccuracyLabel a = "Needs Work"%string /\
   getAccuracyColor a = "text-red-600"%string).
Proof.
  unfold getAccuracyLabel, getAccuracyColor.
  destruct (Qle_bool 90 a) eqn:E90; destruct (Qle_bool 70 a) eqn:E70;
    destruct (Qle_bool 50 a) eqn:E50; decide_bands;
    repeat split; try reflexivity; intros; exfalso; lra.
Qed.

Lemma accuracy_label_and_color_agree_witness :
  (getAccuracyLabel 95 = "Excellent"%string /\
   getAccuracyColor 95 = "text-green-600"%string) /\
  (getAccuracyLabel 70 = "Good"%string /\
   getAccuracyColor 70 = "text-yellow-600"%string) /\
  (getAccuracyLabel 69.9 = "Fair"%string /\
   getAccuracyColor 69.9 = "text-orange-600"%string) /\
  (getAccuracyLabel 0 = "Needs Work"%string /\
   getAccuracyColor 0 = "text-red-600"%string).
Proof.
  split; [|split; [|split]].
  - apply (proj1 (accuracy_label_and_color_agree 95)). lra.
  - apply (proj1 (proj2 (accuracy_label_and_color_agree 70))). lra.
  - apply (proj1 (proj2 (proj2 (accuracy_label_and_color_agree 69.9)))). lra.
  - apply (proj2 (proj2 (proj2 (accuracy_label_and_color_agree 0)))). lra.
Defined.

(** ** What an attempt leaves alone *)

Local Open Scope Z_scope.

(** X2. Whatever the reply and whatever render the closure comes from, an
    attempt never touches the session id, the language, the sentences, the
    sentence on screen, its index, the sentence counter, the quota or the
    route; and when the closure has no sentence or no session id the
    attempt changes nothing at all: no result, no alert, no count. *)
Theorem attempt_frame (r st : State) (reply : option SessionResult.t) :
  let st' := processAudio r reply st in
  (sessionId st' = sessionId st /\
   sessionLanguage st' = sessionLanguage st /\
   availableSentences st' = availableSentences st /\
   currentSentence st' = currentSentence st /\
   sentenceIndex st' = sentenceIndex st /\
   Progress.current (sessionProgress st')
   = Progress.current (sessionProgress st) /\
   Progress.total (sessionProgress st')
   = Progress.total (sessionProgress st) /\
   location st' = location st) /\
  (isNull (currentSentence r) = true \/ truthy (sessionId r) = false ->
   st' = st).
Proof.
  cbv zeta. unfold processAudio. split.
  - destruct (isNull _ || _); [repeat split; reflexivity|].
    destruct reply as [result|]; [destruct (negb _)|];
      on_store st; repeat split; reflexivity.
  - intros [H|H]; rewrite H; [reflexivity|].
    rewrite orb_true_r. reflexivity.
Qed.

Lemma attempt_frame_witness :
  processAudio (initialState "en" 50) (Some (scored 90 90)) thirdAttempt
  = thirdAttempt.
Proof.
  apply (proj2 (attempt_frame (initialState "en" 50) thirdAttempt
                  (Some (scored 90 90)))).
  left. reflexivity.
Defined.

(** The alert of a failed scoring call. *)
Lemma processAudio_failed (r st : State) :
  canScore r ->
  processAudio r None st
  = setIsProcessing false
      (alert "Error processing audio. Please check your microphone and internet connection, then try again."
         (setSessionResult (Some errorResult) (setIsProcessing true st))).
Proof.
  intros G. unfold processAudio. rewrite (canScore_guard r G). reflexivity.
Qed.

(** X3. A failed attempt followed by a scored retry leaves the store as
    the scored attempt alone would have, apart from the alert that was
    shown: progress, tier, result and flags are the same. *)
Theorem retry_after_failure (r st : State) (result : SessionResult.t) :
  canScore r ->
  let retried := processAudio r (Some result) (processAudio r None st) in
  let direct := processAudio r (Some result) st in
  sessionProgress retried = sessionProgress direct /\
  currentDifficulty retried = currentDifficulty direct /\
  sessionResult retried = sessionResult direct /\
  userWabScore retried = userWabScore direct /\
  isProcessing retried = isProcessing direct /\
  currentSentence retried = currentSentence direct /\
  alerts retried =
    (alerts direct ++
     ["Error processing audio. Please check your microphone and internet connection, then try again."])%list.
Proof.
  intros G. cbv zeta. rewrite (processAudio_failed r st G).
  unfold processAudio. rewrite (canScore_guard r G).
  destruct (negb _); on_store st; repeat split; reflexivity.
Qed.

Lemma retry_after_failure_witness :
  Progress.completed
    (sessionProgress
       (processAudio thirdAttempt (Some (scored 90 60))
          (processAudio thirdAttempt None thirdAttempt)))
  = 3.
Proof.
  rewrite (proj1 (retry_after_failure thirdAttempt thirdAttempt
                    (scored 90 60) (conj eq_refl eq_refl))).
  reflexivity.
Defined.

(** X4. A recording is scored at most once: after the stop of a recording
    has been handled, a second stop does nothing, whatever reply it would
    carry; and a stop with no recording in progress does nothing. *)
Theorem stop_scores_once (st : State)
    (reply again : option SessionResult.t) :
  dispatch (ClickStop again) (dispatch (ClickStop reply) st)
  = dispatch (ClickStop reply) st /\
  (isRecording st = false -> dispatch (ClickStop reply) st = st).
Proof.
  split.
  - destruct (mediaRecorderRef st && isRecording st) eqn:E.
    + assert (H : isRecording (dispatch (ClickStop reply) st) = false).
      { unfold dispatch, andThen, stopRecording, processAudio. rewrite E.
        destruct (isNull _ || _);
          [|destruct reply as [result|]; [destruct (negb _)|]];
          on_store st; reflexivity. }
      revert H. generalize (dispatch (ClickStop reply) st) as st'.
      intros st' H. unfold dispatch. rewrite H, andb_false_r. reflexivity.
    + assert (H : dispatch (ClickStop reply) st = st)
        by (unfold dispatch; rewrite E; reflexivity).
      rewrite H. unfold dispatch. rewrite E. reflexivity.
  - intros H. unfold dispatch. rewrite H, andb_false_r. reflexivity.
Qed.

Lemma stop_scores_once_witness :
  dispatch (ClickStop (Some (scored 90 60))) thirdAttempt = thirdAttempt.
Proof.
  apply (proj2 (stop_scores_once thirdAttempt (Some (scored 90 60)) None)).
  reflexivity.
Defined.

(** ** A run of attempts *)

Local Open Scope Q_scope.

Lemma getDifficultyFromWabScore_Qeq (a b : Q) :
  a == b -> getDifficultyFromWabScore a = getDifficultyFromWabScore b.
Proof.
  intros H. unfold getDifficultyFromWabScore.
  rewrite (Qleb_comp 76 76 (Qeq_refl 76) a b H).
  rewrite (Qleb_comp 51 51 (Qeq_refl 51) a b H).
  reflexivity.
Qed.

Lemma attempts_app (rs rs' : list SessionResult.t) (st : State) :
  attempts (rs ++ rs') st = attempts rs' (attempts rs st).
Proof. unfold attempts. apply fold_left_app. Qed.

Lemma canScore_attempts (rs : list SessionResult.t) (st : State) :
  canScore st -> canScore (attempts rs st).
Proof.
  revert st. induction rs as [|result rs IH]; intros st G; [exact G|].
  rewrite attempts_cons. apply IH. apply canScore_processAudio. exact G.
Qed.

(** The counts and the WAB-AQ total after a run of scored attempts; the
    total is the sum taken from left to right, as the updater adds. *)
Lemma attempts_totals (rs : list SessionResult.t) (st : State) :
  canScore st ->
  let p := sessionProgress st in
  let p' := sessionProgress (attempts rs st) in
  Progress.completed p'
  = (Progress.completed p + Z.of_nat (length rs))%Z /\
  Progress.current p' = Progress.current p /\
  Progress.total p' = Progress.total p /\
  Progress.totalWabScore p'
  = fold_left Qplus (map SessionResult.wab_score rs)
      (Progress.totalWabScore p).
Proof.
  revert st. induction rs as [|result rs IH]; intros st G; cbv zeta.
  - cbn [attempts fold_left length map Z.of_nat].
    repeat split; lia.
  - rewrite attempts_cons.
    destruct (IH (processAudio st (Some result) st)
                (canScore_processAudio st _ G)) as (Hc & Hcur & Htot & Hw).
    rewrite (processAudio_scored st result st G) in Hc, Hcur, Htot, Hw.
    cbn [recordAttempt Progress.completed Progress.current Progress.total
         Progress.totalWabScore] in Hc, Hcur, Htot, Hw.
    repeat split; try assumption.
    rewrite Hc. cbn [length]. lia.
Qed.

(** X5. Every scored attempt is counted, also a repeated attempt at the
    same sentence: a run of n scored attempts with no click on next raises
    [completed] by n and leaves the sentence counter and the quota alone,
    so [completed] exceeds [total] once n is large enough. *)
Theorem retries_are_counted (rs : list SessionResult.t) (st : State) :
  canScore st ->
  let p := sessionProgress st in
  let p' := sessionProgress (attempts rs st) in
  Progress.completed p'
  = (Progress.completed p + Z.of_nat (length rs))%Z /\
  Progress.current p' = Progress.current p /\
  Progress.total p' = Progress.total p /\
  ((Progress.total p - Progress.completed p < Z.of_nat (length rs))%Z ->
   (Progress.total p' < Progress.completed p')%Z).
Proof.
  intros G. cbv zeta.
  destruct (attempts_totals rs st G) as (Hc & Hcur & Htot & _).
  repeat split; try assumption.
  intros H. rewrite Hc, Htot. lia.
Qed.

Lemma retries_are_counted_witness :
  let p' :=
    sessionProgress
      (attempts (repeat (scored 90 60) 11) firstAttempt) in
  Progress.current p' = 1%Z /\
  (Progress.total p' < Progress.completed p')%Z.
Proof.
  destruct (retries_are_counted (repeat (scored 90 60) 11) firstAttempt
              (conj eq_refl eq_refl)) as (_ & Hcur & _ & Hover).
  cbv zeta. split; [exact Hcur|].
  apply Hover. vm_compute. reflexivity.
Defined.

(** X6. The tier follows the session's average WAB-AQ score as the store
    holds it: after any non-empty run of scored attempts the stored tier is
    the classification of the store's own [totalWabScore] divided by its
    [completed], the very quotient the handler computed; the total is the
    sum of the WAB-AQ scores taken from left to right on top of the
    starting total, the count has grown by the number of attempts and the
    displayed WAB-AQ score is the last one.  Every equality is between the
    same expressions, so no law of exact arithmetic is involved. *)
Theorem tier_follows_session_average (rs : list SessionResult.t)
    (st : State) :
  canScore st -> rs <> [] ->
  let st' := attempts rs st in
  let p' := sessionProgress st' in
  currentDifficulty st'
  = getDifficultyFromWabScore
      (Progress.totalWabScore p' / inject_Z (Progress.completed p')) /\
  Progress.totalWabScore p'
  = fold_left Qplus (map SessionResult.wab_score rs)
      (Progress.totalWabScore (sessionProgress st)) /\
  Progress.completed p'
  = (Progress.completed (sessionProgress st) + Z.of_nat (length rs))%Z /\
  userWabScore st' = lastWab rs (userWabScore st).
Proof.
  intros G Hne. cbv zeta.
  destruct (attempts_totals rs st G) as (Hc & _ & _ & Hw).
  split; [|split; [exact Hw|split; [exact Hc|]]];
    destruct (exists_last Hne) as (rs0 & result & ->);
    rewrite attempts_app;
    set (s0 := attempts rs0 st);
    assert (G0 : canScore s0) by (apply canScore_attempts; exact G);
    change (attempts [result] s0) with (processAudio s0 (Some result) s0).
  - pose proof (processAudio_tier s0 s0 result G0) as Ht. cbv zeta in Ht.
    rewrite Ht, (processAudio_scored s0 result s0 G0).
    cbn [recordAttempt Progress.totalWabScore Progress.completed].
    match goal with
    | |- (if ?b then _ else _) = _ => destruct b eqn:E
    end; [|reflexivity].
    apply Difficulty_eqb_eq in E. symmetry. exact E.
  - unfold lastWab. rewrite map_app. cbn [map]. rewrite last_last.
    unfold processAudio. rewrite (canScore_guard s0 G0).
    destruct (negb _); on_store s0; reflexivity.
Qed.

Lemma tier_follows_session_average_witness :
  let st' :=
    attempts [scored 60 40; scored 90 70; scored 75 100] firstAttempt in
  currentDifficulty st'
  = getDifficultyFromWabScore
      (Progress.totalWabScore (sessionProgress st')
       / inject_Z (Progress.completed (sessionProgress st'))).
Proof.
  apply (tier_follows_session_average
           [scored 60 40; scored 90 70; scored 75 100] firstAttempt
           (conj eq_refl eq_refl)).
  discriminate.
Defined.

(** ** Invariants of the whole page *)

Local Open Scope Z_scope.

Lemma loadSentencesFromAPI_progress (r : State)
    (sentences : option (list Sentence.t)) (st : State) :
  sessionProgress (loadSentencesFromAPI r sentences st) = sessionProgress st.
Proof.
  unfold loadSentencesFromAPI, andThen.
  rewrite sentencesSettled_progress. on_store st; reflexivity.
Qed.

(** What a click on next does to the progress: nothing, one step of the
    counter below the quota, or a fresh session. *)
Lemma nextSentence_progress_cases (st : State)
    (completion : option CompletionResult) (confirmed : bool)
    (start : option StartResponse) (sentences : option (list Sentence.t)) :
  let p := sessionProgress st in
  let p' :=
    sessionProgress
      (nextSentence st completion confirmed start sentences st) in
  p' = p \/
  (Progress.current p < Progress.total p /\
   p' = Progress.mk (Progress.current p + 1) (Progress.total p)
          (Progress.completed p) (Progress.accuracy p)
          (Progress.totalWabScore p)) \/
  p' = freshProgress.
Proof.
  cbv zeta. unfold nextSentence.
  destruct (_ <? _) eqn:Hlt.
  - apply Z.ltb_lt in Hlt.
    right. left. split; [exact Hlt|].
    destruct (_ <? _)%nat;
      [|unfold andThen; rewrite sentencesSettled_progress];
      on_store st; reflexivity.
  - destruct (truthy _); [|left; on_store st; reflexivity].
    destruct completion as [c|]; [|left; on_store st; reflexivity].
    destruct (offeredTier st c) as [d|].
    + destruct confirmed; [|left; on_store st; reflexivity].
      right. right.
      unfold loadSentencesFromAPI. cbv beta delta [andThen].
      rewrite sentencesSettled_progress.
      unfold setIsLoadingSentences; cbn [sessionProgress].
      rewrite initializeSession_progress.
      on_store st; reflexivity.
    + destruct (progression_message c) as [m|]; [destruct (negb _)|];
        left; on_store st; reflexivity.
Qed.

(** What an event does to the progress, with the reply it scored. *)
Lemma dispatchUi_progress (e : UiEvent) (st : State) :
  let p := sessionProgress st in
  let p' := sessionProgress (dispatchUi e st) in
  p' = p \/
  (Progress.current p < Progress.total p /\
   p' = Progress.mk (Progress.current p + 1) (Progress.total p)
          (Progress.completed p) (Progress.accuracy p)
          (Progress.totalWabScore p)) \/
  (exists result,
     e = Core (ClickStop (Some result)) /\ p' = recordAttempt result p) \/
  p' = freshProgress.
Proof.
  cbv zeta.
  destruct e as [[start|sentences|granted|reply|completion confirmed start
                  sentences|newLanguage]|sentences|]; unfold dispatchUi.
  - left. apply initializeSession_progress.
  - left. unfold dispatch. destruct (truthy _); [|reflexivity].
    apply loadSentencesFromAPI_progress.
  - left. unfold dispatch, startRecording.
    destruct granted; on_store st; reflexivity.
  - unfold dispatch.
    destruct (_ && _) eqn:E; [|left; reflexivity].
    unfold andThen, stopRecording. rewrite E.
    unfold processAudio.
    destruct (isNull _ || _); [left; on_store st; reflexivity|].
    destruct reply as [result|].
    + right. right. left. exists result. split; [reflexivity|].
      destruct (negb _); on_store st; reflexivity.
    + left. on_store st; reflexivity.
  - destruct (nextSentence_progress_cases st completion confirmed start
                sentences) as [H|[H|H]]; auto.
  - left. unfold dispatch, changeLanguage. on_store st; reflexivity.
  - left. destruct (_ || _); [reflexivity|].
    apply loadSentencesFromAPI_progress.
  - left. destruct (_ =? _); [|reflexivity]. on_store st; reflexivity.
Qed.

Local Open Scope Q_scope.

Lemma recordAttempt_bounded (result : SessionResult.t) (p : Progress.t) :
  inRange (SessionResult.accuracy result) ->
  inRange (SessionResult.wab_score result) ->
  aggregatesBounded p -> aggregatesBounded (recordAttempt result p).
Proof.
  intros [Ha0 Ha1] [Hw0 Hw1] (Hn & [Hm0 Hm1] & Ht0 & Ht1).
  unfold aggregatesBounded, inRange, recordAttempt.
  cbn [Progress.completed Progress.accuracy Progress.totalWabScore].
  assert (Hq : 0 <= inject_Z (Progress.completed p))
    by (change 0 with (inject_Z 0); rewrite <- Zle_Qle; exact Hn).
  assert (Hpos : 0 < inject_Z (Progress.completed p + 1))
    by (rewrite inject_Z_plus; change (inject_Z 1) with 1; lra).
  assert (Hlo : 0 <= Progress.accuracy p * inject_Z (Progress.completed p))
    by (apply Qmult_le_0_compat; assumption).
  assert (Hhi : Progress.accuracy p * inject_Z (Progress.completed p)
                <= 100 * inject_Z (Progress.completed p))
    by (apply Qmult_le_compat_r; assumption).
  repeat split.
  - lia.
  - apply Qle_shift_div_l; [exact Hpos|]. lra.
  - apply Qle_shift_div_r; [exact Hpos|].
    rewrite inject_Z_plus. change (inject_Z 1) with 1. lra.
  - lra.
  - rewrite inject_Z_plus. change (inject_Z 1) with 1. lra.
Qed.

Lemma freshProgress_bounded : aggregatesBounded freshProgress.
Proof.
  unfold aggregatesBounded, inRange, freshProgress.
  cbn [Progress.completed Progress.accuracy Progress.totalWabScore].
  repeat split; try lia; unfold Qle; cbn; lia.
Qed.

Lemma dispatchUi_bounded (e : UiEvent) (st : State) :
  scoresInRange e ->
  aggregatesBounded (sessionProgress st) ->
  aggregatesBounded (sessionProgress (dispatchUi e st)).
Proof.
  intros He H.
  destruct (dispatchUi_progress e st)
    as [Hk|[[_ Ha]|[(result & -> & Hs)|Hf]]].
  - rewrite Hk. exact H.
  - rewrite Ha. exact H.
  - rewrite Hs. destruct He as [Hacc Hwab].
    apply recordAttempt_bounded; assumption.
  - rewrite Hf. apply freshProgress_bounded.
Qed.

(** X7. While the scoring service replies with scores in [0, 100], the
    aggregates of the session stay those of such scores after every
    sequence of events: the running mean lies in [0, 100], the WAB-AQ total
    lies between 0 and 100 times the attempt count, and the count is not
    negative. *)
Theorem aggregates_stay_in_range (lang : string) (wab : Q)
    (events : list UiEvent) :
  Forall scoresInRange events ->
  let p := sessionProgress (runUi events (initialState lang wab)) in
  (0 <= Progress.completed p)%Z /\
  0 <= Progress.accuracy p /\ Progress.accuracy p <= 100 /\
  0 <= Progress.totalWabScore p /\
  Progress.totalWabScore p <= 100 * inject_Z (Progress.completed p).
Proof.
  intros Hall. cbv zeta.
  assert (H : aggregatesBounded
                (sessionProgress (runUi events (initialState lang wab)))).
  { assert (H0 : aggregatesBounded
                   (sessionProgress (initialState lang wab)))
      by apply freshProgress_bounded.
    revert H0. generalize (initialState lang wab) as st.
    induction Hall as [|e events He _ IH]; intros st H0; [exact H0|].
    cbn [runUi fold_left]. apply IH.
    apply dispatchUi_bounded; assumption. }
  destruct H as (Hn & [Hm0 Hm1] & Ht0 & Ht1). repeat split; assumption.
Qed.

Lemma aggregates_stay_in_range_witness :
  let p :=
    sessionProgress
      (runUi (map Core (sessionOfTen (scored 90 60)))
         (initialState "en" 50)) in
  0 <= Progress.accuracy p /\ Progress.accuracy p <= 100.
Proof.
  destruct (aggregates_stay_in_range "en" 50
              (map Core (sessionOfTen (scored 90 60))))
    as (_ & H0 & H1 & _).
  - repeat constructor; cbn; lra.
  - cbv zeta. split; assumption.
Defined.

Local Open Scope Z_scope.

(** X8. The quota never changes and the counter never leaves it, whatever
    the controls used: after every sequence of events, the reload and the
    back button included, [total] is 10 and 1 <= current <= 10. *)
Theorem quota_is_constant (lang : string) (wab : Q)
    (events : list UiEvent) :
  let p := sessionProgress (runUi events (initialState lang wab)) in
  Progress.total p = 10 /\ 1 <= Progress.current p <= 10.
Proof.
  cbv zeta.
  assert (H0 : Progress.total (sessionProgress (initialState lang wab)) = 10
               /\ 1 <= Progress.current
                         (sessionProgress (initialState lang wab)) <= 10)
    by (cbn; lia).
  revert H0. generalize (initialState lang wab) as st.
  induction events as [|e events IH]; intros st H0; [exact H0|].
  cbn [runUi fold_left]. apply IH.
  destruct (dispatchUi_progress e st)
    as [Hk|[[Hlt Ha]|[(result & _ & Hs)|Hf]]].
  - rewrite Hk. exact H0.
  - rewrite Ha. cbn. lia.
  - rewrite Hs. cbn. exact H0.
  - rewrite Hf. cbn. lia.
Qed.

(** ** Sentences *)

Lemma mockSentences_head (lang : string) (d : Difficulty) :
  exists s l,
    mockSentences lang d = s :: l /\
    Sentence.difficulty s = d /\ Sentence.language s = lang.
Proof. destruct d; cbn; eauto. Qed.

Lemma sentencesSettled_shown (r : State)
    (reply : option (list Sentence.t)) (st : State) :
  reply <> Some [] -> shownIsAvailable (sentencesSettled r reply st).
Proof.
  intros Hne. unfold sentencesSettled, loadFallbackSentences.
  destruct reply as [[|s l]|].
  - congruence.
  - on_store st. intros s' H. injection H as <-. left. reflexivity.
  - destruct (mockSentences_head (sessionLanguage r) (currentDifficulty r))
      as (s & l & -> & _).
    on_store st. intros s' H. injection H as <-. left. reflexivity.
Qed.

Lemma loadSentencesFromAPI_shown (r : State)
    (reply : option (list Sentence.t)) (st : State) :
  reply <> Some [] -> shownIsAvailable (loadSentencesFromAPI r reply st).
Proof.
  intros Hne. unfold loadSentencesFromAPI, andThen.
  apply sentencesSettled_shown. exact Hne.
Qed.

Lemma processAudio_shown (r : State) (reply : option SessionResult.t)
    (st : State) :
  shownIsAvailable st -> shownIsAvailable (processAudio r reply st).
Proof.
  unfold shownIsAvailable, processAudio.
  destruct (isNull _ || _); [auto|].
  destruct reply as [result|]; [destruct (negb _)|];
    on_store st; auto.
Qed.

Lemma nextSentence_shown (st : State)
    (completion : option CompletionResult) (confirmed : bool)
    (start : option StartResponse) (sentences : option (list Sentence.t)) :
  sentences <> Some [] ->
  shownIsAvailable st ->
  shownIsAvailable (nextSentence st completion confirmed start sentences st).
Proof.
  intros Hne H. unfold nextSentence.
  destruct (_ <? _).
  - destruct (_ <? _)%nat eqn:Hidx.
    + unfold shownIsAvailable in *. on_store st.
      intros s Hs. apply nth_error_In in Hs. exact Hs.
    + unfold andThen. apply sentencesSettled_shown. exact Hne.
  - destruct (truthy _);
      [|unfold shownIsAvailable in *; on_store st; exact H].
    destruct completion as [c|];
      [|unfold shownIsAvailable in *; on_store st; exact H].
    destruct (offeredTier st c) as [d|].
    + destruct confirmed;
        [|unfold shownIsAvailable in *; on_store st; exact H].
      cbv beta delta [andThen].
      apply loadSentencesFromAPI_shown. exact Hne.
    + destruct (progression_message c) as [m|]; [destruct (negb _)|];
        unfold shownIsAvailable in *; on_store st; exact H.
Qed.

Lemma dispatchUi_shown (e : UiEvent) (st : State) :
  noEmptyReply e ->
  shownIsAvailable st -> shownIsAvailable (dispatchUi e st).
Proof.
  unfold noEmptyReply.
  destruct e as [[start|sentences|granted|reply|completion confirmed start
                  sentences|newLanguage]|sentences|];
    cbn [sentencesOf]; intros Hne H; unfold dispatchUi.
  - unfold dispatch, initializeSession.
    destruct start as [[sid [d|]]|];
      unfold shownIsAvailable in *; on_store st; exact H.
  - unfold dispatch. destruct (truthy _); [|exact H].
    apply loadSentencesFromAPI_shown. exact Hne.
  - unfold dispatch, startRecording.
    destruct granted; unfold shownIsAvailable in *; on_store st; exact H.
  - unfold dispatch. destruct (_ && _) eqn:E; [|exact H].
    unfold andThen, stopRecording. rewrite E.
    apply processAudio_shown.
    unfold shownIsAvailable in *. on_store st; exact H.
  - apply nextSentence_shown; assumption.
  - unfold dispatch, changeLanguage.
    unfold shownIsAvailable in *; on_store st; exact H.
  - destruct (_ || _); [exact H|].
    apply loadSentencesFromAPI_shown. exact Hne.
  - destruct (_ =? _); [|exact H].
    unfold shownIsAvailable in *; on_store st; exact H.
Qed.

(** X9. As long as the sentence service never replies with an empty list,
    the sentence on screen is always one of the available sentences, after
    every sequence of events; a failed request is covered, because the
    fallback shows the first of its own sentences. *)
Theorem shown_sentence_is_available (lang : string) (wab : Q)
    (events : list UiEvent) :
  Forall noEmptyReply events ->
  forall s,
    currentSentence (runUi events (initialState lang wab)) = Some s ->
    In s (availableSentences (runUi events (initialState lang wab))).
Proof.
  intros Hall.
  change (shownIsAvailable (runUi events (initialState lang wab))).
  assert (H0 : shownIsAvailable (initialState lang wab))
    by (intros s H; discriminate H).
  revert H0. generalize (initialState lang wab) as st.
  induction Hall as [|e events He _ IH]; intros st H0; [exact H0|].
  cbn [runUi fold_left]. apply IH.
  apply dispatchUi_shown; assumption.
Qed.

Lemma shown_sentence_is_available_witness :
  In helloSentence
    (availableSentences
       (runUi [Core (Mount None); Core (SentencesEffect None)]
          (initialState "en" 50))).
Proof.
  apply (shown_sentence_is_available "en" 50
           [Core (Mount None); Core (SentencesEffect None)]).
  - repeat constructor; discriminate.
  - reflexivity.
Defined.

(** X10. An empty reply of the sentence service empties the list but
    leaves the previous sentence on screen, so that the sentence shown is
    then not among the available ones. *)
Theorem empty_reply_keeps_stale_sentence (r st : State) (s : Sentence.t) :
  currentSentence st = Some s ->
  let st' := loadSentencesFromAPI r (Some []) st in
  currentSentence st' = Some s /\
  availableSentences st' = [] /\
  ~ shownIsAvailable st'.
Proof.
  intros Hs. cbv zeta.
  unfold loadSentencesFromAPI, sentencesSettled, shownIsAvailable.
  on_store st. cbn in Hs. subst.
  repeat split. intros H. exact (H s eq_refl).
Qed.

Lemma empty_reply_keeps_stale_sentence_witness :
  currentSentence (loadSentencesFromAPI thirdAttempt (Some []) thirdAttempt)
  = Some helloSentence.
Proof.
  apply (empty_reply_keeps_stale_sentence thirdAttempt thirdAttempt
           helloSentence eq_refl).
Defined.

(** X11. When both the start of the session and the request for sentences
    fail, the page still works locally: the session id is
    "offline-session", the first fallback sentence of the current tier and
    language is on screen, so an attempt can be scored; tier and progress
    are untouched. *)
Theorem offline_session_can_score (st : State) :
  let st' := dispatch (SentencesEffect None) (dispatch (Mount None) st) in
  sessionId st' = Some "offline-session" /\
  canScore st' /\
  (exists s,
     currentSentence st' = Some s /\
     hd_error (availableSentences st') = Some s /\
     Sentence.difficulty s = currentDifficulty st /\
     Sentence.language s = sessionLanguage st) /\
  currentDifficulty st' = currentDifficulty st /\
  sessionProgress st' = sessionProgress st /\
  isLoadingSentences st' = false.
Proof.
  cbv zeta.
  unfold dispatch, initializeSession, loadSentencesFromAPI,
    sentencesSettled, loadFallbackSentences, canScore.
  on_store st. cbn [truthy String.eqb Ascii.eqb Bool.eqb negb].
  unfold_setters.
  destruct currentDifficulty0; cbn;
    repeat split; eexists; repeat split.
Qed.

(** ** The end of a session *)

(** X12. A click on next at the quota has two outcomes only.  Either the
    page leaves for the dashboard and the session is left as it was:
    progress, tier, session id and sentence are untouched; that is what
    happens when there is no session id, when the completion call fails,
    when no other tier is offered and when the offer is declined.  Or the
    offer was confirmed and a new session starts on the same page: fresh
    progress, no result on screen, a session id, and no navigation. *)
Theorem completion_leaves_or_restarts (r st : State)
    (completion : option CompletionResult) (confirmed : bool)
    (start : option StartResponse) (sentences : option (list Sentence.t)) :
  atQuota r ->
  let st' := nextSentence r completion confirmed start sentences st in
  (location st' = Some "/patient/dashboard" /\
   sessionProgress st' = sessionProgress st /\
   currentDifficulty st' = currentDifficulty st /\
   sessionId st' = sessionId st /\
   currentSentence st' = currentSentence st /\
   (truthy (sessionId r) = false \/ completion = None \/
    (exists c, completion = Some c /\ offeredTier r c = None) \/
    confirmed = false))
  \/
  (confirmed = true /\ truthy (sessionId r) = true /\
   (exists c d, completion = Some c /\ offeredTier r c = Some d) /\
   sessionProgress st' = freshProgress /\
   sessionResult st' = None /\
   isNull (sessionId st') = false /\
   isLoadingSentences st' = false /\
   location st' = location st).
Proof.
  intros Hquota. cbv zeta. unfold nextSentence.
  rewrite (atQuota_test r Hquota).
  destruct (truthy (sessionId r)) eqn:Hid;
    [|left; on_store st; repeat split; auto].
  destruct completion as [c|];
    [|left; on_store st; repeat split; auto].
  destruct (offeredTier r c) as [d|] eqn:Hoffer.
  - destruct confirmed;
      [|left; on_store st; repeat split; auto 6].
    right.
    unfold initializeSession, loadSentencesFromAPI, sentencesSettled,
      loadFallbackSentences.
    repeat split; eauto;
      destruct start as [[sid [d'|]]|];
      (destruct sentences as [[|s l]|]; [| |destruct (mockSentences _ _)]);
      on_store st; reflexivity.
  - left.
    destruct (progression_message c) as [m|]; [destruct (negb _)|];
      on_store st; repeat split; eauto 6.
Qed.

Lemma completion_leaves_or_restarts_witness :
  location (nextSentence lastSentence None true None None lastSentence)
  = Some "/patient/dashboard" \/
  sessionProgress (nextSentence lastSentence None true None None
                     lastSentence)
  = freshProgress.
Proof.
  destruct (completion_leaves_or_restarts lastSentence lastSentence
              None true None None) as [(H & _)|(_ & _ & _ & H & _)].
  - vm_compute. discriminate.
  - left. exact H.
  - right. exact H.
Defined.

(** ** What moves the tier *)

Lemma loadSentencesFromAPI_tier (r : State)
    (sentences : option (list Sentence.t)) (st : State) :
  currentDifficulty (loadSentencesFromAPI r sentences st)
  = currentDifficulty st.
Proof.
  unfold loadSentencesFromAPI, sentencesSettled, loadFallbackSentences.
  destruct sentences as [[|s l]|]; [| |destruct (mockSentences _ _)];
    on_store st; reflexivity.
Qed.

(** The tier after a click on next that does not restart the session. *)
Lemma nextSentence_tier_kept (st : State)
    (completion : option CompletionResult)
    (start : option StartResponse) (sentences : option (list Sentence.t)) :
  (atQuota st -> forall c, completion = Some c -> offeredTier st c = None) ->
  currentDifficulty (nextSentence st completion true start sentences st)
  = currentDifficulty st.
Proof.
  intros H. unfold nextSentence, sentencesSettled, loadFallbackSentences.
  destruct (_ <? _) eqn:Hlt.
  - destruct (_ <? _)%nat.
    + on_store st; reflexivity.
    + destruct sentences as [[|s l]|];
        [| |destruct (mockSentences _ _)]; on_store st; reflexivity.
  - apply Z.ltb_ge in Hlt.
    destruct (truthy _); [|on_store st; reflexivity].
    destruct completion as [c|]; [|on_store st; reflexivity].
    rewrite (H Hlt c eq_refl).
    destruct (progression_message c) as [m|]; [destruct (negb _)|];
      on_store st; reflexivity.
Qed.

(** X14. The tier is moved by three things only: a session start whose
    reply names a tier, a scored attempt, and a confirmed offer at the
    quota.  No other event changes the tier: not a change of language, a
    reload of the sentences, a failed attempt, a declined offer or a
    click on next below the quota. *)
Theorem tier_moves_only_by (e : UiEvent) (st : State) :
  currentDifficulty (dispatchUi e st) <> currentDifficulty st ->
  (exists response,
     e = Core (Mount (Some response)) /\
     current_difficulty response
     = Some (currentDifficulty (dispatchUi e st))) \/
  (exists result,
     e = Core (ClickStop (Some result)) /\
     isRecording st = true /\ canScore st) \/
  (exists c d start sentences,
     e = Core (ClickNext (Some c) true start sentences) /\
     atQuota st /\ offeredTier st c = Some d).
Proof.
  destruct e as [[start|sentences|granted|reply|completion confirmed start
                  sentences|newLanguage]|sentences|];
    unfold dispatchUi; intros Hmoved.
  - left. unfold dispatch, initializeSession in *.
    destruct start as [[sid [d|]]|].
    + eexists. split; [reflexivity|]. cbn [current_difficulty].
      f_equal; on_store st; reflexivity.
    + exfalso. apply Hmoved. on_store st; reflexivity.
    + exfalso. apply Hmoved. on_store st; reflexivity.
  - exfalso. apply Hmoved. unfold dispatch.
    destruct (truthy _); [|reflexivity]. apply loadSentencesFromAPI_tier.
  - exfalso. apply Hmoved. unfold dispatch, startRecording.
    destruct granted; on_store st; reflexivity.
  - right. left. unfold dispatch in Hmoved.
    destruct (mediaRecorderRef st && isRecording st) eqn:E;
      [|exfalso; apply Hmoved; reflexivity].
    apply andb_prop in E. destruct E as [_ Hrec].
    unfold andThen, processAudio in Hmoved.
    destruct (isNull (currentSentence st)) eqn:Hnull;
      [exfalso; apply Hmoved; cbn [orb];
       unfold stopRecording; destruct (_ && _); on_store st; reflexivity|].
    destruct (truthy (sessionId st)) eqn:Hid;
      [|exfalso; apply Hmoved; cbn [orb negb];
        unfold stopRecording; destruct (_ && _); on_store st; reflexivity].
    destruct reply as [result|].
    + exists result. repeat split; assumption.
    + exfalso. apply Hmoved. cbn [orb negb].
      unfold stopRecording; destruct (_ && _); on_store st; reflexivity.
  - right. right. unfold dispatch in Hmoved.
    destruct confirmed;
      [|exfalso; apply Hmoved; apply nextSentence_unconfirmed_tier].
    destruct (Z_lt_le_dec (Progress.current (sessionProgress st))
                (Progress.total (sessionProgress st))) as [Hlt|Hge].
    + exfalso. apply Hmoved. apply nextSentence_tier_kept.
      unfold atQuota. intros Hq. lia.
    + destruct completion as [c|].
      * destruct (offeredTier st c) as [d|] eqn:Hoffer.
        -- exists c, d, start, sentences. repeat split; assumption.
        -- exfalso. apply Hmoved. apply nextSentence_tier_kept.
           intros _ c' Hc'. injection Hc' as <-. exact Hoffer.
      * exfalso. apply Hmoved. apply nextSentence_tier_kept.
        intros _ c' Hc'. discriminate Hc'.
  - exfalso. apply Hmoved. unfold dispatch, changeLanguage.
    on_store st; reflexivity.
  - exfalso. apply Hmoved.
    destruct (_ || _); [reflexivity|]. apply loadSentencesFromAPI_tier.
  - exfalso. apply Hmoved.
    destruct (_ =? _); [|reflexivity]. on_store st; reflexivity.
Qed.

Lemma tier_moves_only_by_witness :
  let e := Core (ClickStop (Some (scored 90 100))) in
  let st := startRecording true thirdAttempt in
  (exists response,
     e = Core (Mount (Some response)) /\
     current_difficulty response
     = Some (currentDifficulty (dispatchUi e st))) \/
  (exists result,
     e = Core (ClickStop (Some result)) /\
     isRecording st = true /\ canScore st) \/
  (exists c d start sentences,
     e = Core (ClickNext (Some c) true start sentences) /\
     atQuota st /\ offeredTier st c = Some d).
Proof.
  apply (tier_moves_only_by (Core (ClickStop (Some (scored 90 100))))
           (startRecording true thirdAttempt)).
  vm_compute. discriminate.
Defined.

(** * Properties of the picture exercises *)

Ltac on_picture st :=
  destruct st;
  cbv beta iota delta
    [PictureTherapy.andThen PictureTherapy.skip
     PictureTherapy.setLanguage PictureTherapy.setExercises
     PictureTherapy.setCurrentIndex PictureTherapy.setIsRecording
     PictureTherapy.setAudioBlob PictureTherapy.setIsProcessing
     PictureTherapy.setResult PictureTherapy.setShowResult
     PictureTherapy.setHasPlayedWord PictureTherapy.setIsPlayingWord
     PictureTherapy.setMediaRecorderRef PictureTherapy.setAudioChunksRef
     PictureTherapy.alert PictureTherapy.resetExercise
     PictureTherapy.language PictureTherapy.difficulty
     PictureTherapy.exercises PictureTherapy.currentIndex
     PictureTherapy.isRecording PictureTherapy.audioBlob
     PictureTherapy.isProcessing PictureTherapy.result
     PictureTherapy.showResult PictureTherapy.hasPlayedWord
     PictureTherapy.isPlayingWord PictureTherapy.mediaRecorderRef
     PictureTherapy.audioChunksRef PictureTherapy.alerts].

Local Open Scope Z_scope.

Lemma picture_tables_have_ten (key : string) :
  length
    match PictureTherapy.mockExercises key with
    | Some found => found
    | None => PictureTherapy.mockExercises_en
    end
  = 10%nat.
Proof.
  unfold PictureTherapy.mockExercises.
  destruct (key =? "en")%string; [reflexivity|].
  destruct (key =? "hi")%string; [reflexivity|].
  destruct (key =? "kn")%string; reflexivity.
Qed.

Lemma picture_effect_in_bounds (r st : PictureTherapy.State) :
  PictureTherapy.indexInBounds (PictureTherapy.exercisesEffect r st) /\
  PictureTherapy.isProcessing (PictureTherapy.exercisesEffect r st)
  = PictureTherapy.isProcessing st.
Proof.
  unfold PictureTherapy.indexInBounds, PictureTherapy.exercisesEffect.
  pose proof (picture_tables_have_ten (PictureTherapy.language r)) as Hlen.
  on_picture st. repeat split; try exact Hlen; lia.
Qed.

Lemma picture_at_index_in_bounds (st : PictureTherapy.State) :
  PictureTherapy.indexInBounds st ->
  exists ex,
    PictureTherapy.at_index (PictureTherapy.exercises st)
      (PictureTherapy.currentIndex st) = Some ex.
Proof.
  intros [Hlen [H0 H10]]. unfold PictureTherapy.at_index.
  destruct (_ <? 0) eqn:E; [apply Z.ltb_lt in E; lia|].
  destruct (nth_error (PictureTherapy.exercises st)
              (Z.to_nat (PictureTherapy.currentIndex st))) as [ex|] eqn:En.
  - exists ex. reflexivity.
  - apply nth_error_None in En. lia.
Qed.

Lemma picture_dispatch_invariant (e : PictureTherapy.Event)
    (st : PictureTherapy.State) :
  PictureTherapy.indexInBounds st /\ PictureTherapy.isProcessing st = false ->
  PictureTherapy.indexInBounds (PictureTherapy.dispatch e st) /\
  PictureTherapy.isProcessing (PictureTherapy.dispatch e st) = false.
Proof.
  intros [Hb Hp].
  destruct e as [|v|played| |granted|size| | |reply| |];
    unfold PictureTherapy.dispatch.
  - destruct (picture_effect_in_bounds st st) as [H1 H2].
    split; [exact H1|]. rewrite H2. exact Hp.
  - destruct (v =? PictureTherapy.language st)%string; [split; assumption|].
    cbv zeta.
    destruct (picture_effect_in_bounds (PictureTherapy.setLanguage v st)
                (PictureTherapy.setLanguage v st)) as [H1 H2].
    split; [exact H1|]. rewrite H2.
    revert Hp. on_picture st. auto.
  - unfold PictureTherapy.playWord, PictureTherapy.indexInBounds in *.
    destruct (PictureTherapy.at_index _ _); [destruct played|];
      revert Hb Hp; on_picture st; auto.
  - unfold PictureTherapy.wordEnded, PictureTherapy.indexInBounds in *.
    revert Hb Hp; on_picture st; auto.
  - unfold PictureTherapy.startRecording, PictureTherapy.indexInBounds in *.
    destruct granted; revert Hb Hp; on_picture st; auto.
  - unfold PictureTherapy.dataAvailable, PictureTherapy.indexInBounds in *.
    destruct (0 <? size); revert Hb Hp; on_picture st; auto.
  - unfold PictureTherapy.stopRecording, PictureTherapy.indexInBounds in *.
    destruct (_ && _); revert Hb Hp; on_picture st; auto.
  - unfold PictureTherapy.recorderStopped, PictureTherapy.indexInBounds in *.
    revert Hb Hp; on_picture st; auto.
  - destruct (picture_at_index_in_bounds st Hb) as [ex Hex].
    unfold PictureTherapy.processAudio. rewrite Hex.
    unfold PictureTherapy.indexInBounds in *.
    destruct (PictureTherapy.audioBlob st); [destruct reply|];
      revert Hb Hp; on_picture st; auto.
  - unfold PictureTherapy.nextExercise, PictureTherapy.indexInBounds in *.
    destruct (_ <? _) eqn:E; [|split; assumption].
    apply Z.ltb_lt in E. revert Hb Hp E. on_picture st.
    intros [Hlen Hidx] Hp E. rewrite Hlen in E.
    repeat split; auto; lia.
  - unfold PictureTherapy.tryAgain, PictureTherapy.indexInBounds in *.
    revert Hb Hp; on_picture st; auto.
Qed.

(** X15. Once the page is mounted, the index always names one of the ten
    exercises of the list, whatever the user does and whatever language is
    selected, so [exercises[currentIndex]] is never undefined; and a
    submission therefore always runs to its end: the processing flag is
    down again after it, whether the request succeeds or fails. *)
Theorem picture_index_always_in_bounds
    (events : list PictureTherapy.Event)
    (reply : option PictureTherapy.Feedback.t) :
  let st :=
    PictureTherapy.run (PictureTherapy.Mount :: events)
      PictureTherapy.initialState in
  length (PictureTherapy.exercises st) = 10%nat /\
  0 <= PictureTherapy.currentIndex st < 10 /\
  (exists ex,
     PictureTherapy.at_index (PictureTherapy.exercises st)
       (PictureTherapy.currentIndex st) = Some ex) /\
  PictureTherapy.isProcessing
    (PictureTherapy.dispatch (PictureTherapy.ClickSubmit reply) st) = false.
Proof.
  cbv zeta.
  assert (H : PictureTherapy.indexInBounds
                (PictureTherapy.run (PictureTherapy.Mount :: events)
                   PictureTherapy.initialState) /\
              PictureTherapy.isProcessing
                (PictureTherapy.run (PictureTherapy.Mount :: events)
                   PictureTherapy.initialState) = false).
  { cbn [PictureTherapy.run fold_left].
    assert (H0 : PictureTherapy.indexInBounds
                   (PictureTherapy.dispatch PictureTherapy.Mount
                      PictureTherapy.initialState) /\
                 PictureTherapy.isProcessing
                   (PictureTherapy.dispatch PictureTherapy.Mount
                      PictureTherapy.initialState) = false)
      by (split; [split; [reflexivity|cbn; lia]|reflexivity]).
    revert H0.
    generalize (PictureTherapy.dispatch PictureTherapy.Mount
                  PictureTherapy.initialState) as st.
    induction events as [|e events IH]; intros st H0; [exact H0|].
    cbn [fold_left]. apply IH. apply picture_dispatch_invariant. exact H0. }
  destruct H as [Hb Hp].
  destruct (picture_dispatch_invariant (PictureTherapy.ClickSubmit reply) _
              (conj Hb Hp)) as [_ Hdone].
  destruct Hb as [Hlen Hidx].
  repeat split; try assumption; try lia.
  apply picture_at_index_in_bounds. split; assumption.
Qed.

Lemma picture_chunks (sizes : list Z) (st : PictureTherapy.State) :
  let st' :=
    PictureTherapy.run (map PictureTherapy.DataAvailable sizes) st in
  PictureTherapy.audioChunksRef st'
  = (PictureTherapy.audioChunksRef st ++ filter (Z.ltb 0) sizes)%list /\
  PictureTherapy.isRecording st' = PictureTherapy.isRecording st /\
  PictureTherapy.mediaRecorderRef st' = PictureTherapy.mediaRecorderRef st.
Proof.
  revert st. induction sizes as [|size sizes IH]; intros st; cbv zeta.
  - cbn. rewrite app_nil_r. repeat split.
  - cbn [map PictureTherapy.run fold_left filter].
    destruct (IH (PictureTherapy.dispatch
                    (PictureTherapy.DataAvailable size) st))
      as (Hc & Hr & Hm).
    unfold PictureTherapy.run in Hc, Hr, Hm. rewrite Hc, Hr, Hm.
    unfold PictureTherapy.dispatch, PictureTherapy.dataAvailable.
    destruct (0 <? size); on_picture st; repeat split.
    rewrite <- app_assoc. reflexivity.
Qed.

(** X16. The recording handed to the submission holds exactly the chunks
    of positive size that the recorder delivered, in their order; empty
    chunks are dropped and chunks of an earlier recording are not carried
    over.  After the stop the page is no longer recording. *)
Theorem picture_recording_keeps_nonempty_chunks (sizes : list Z)
    (st : PictureTherapy.State) :
  let st' := PictureTherapy.run (PictureTherapy.recording sizes) st in
  PictureTherapy.audioBlob st' = Some (filter (Z.ltb 0) sizes) /\
  PictureTherapy.isRecording st' = false.
Proof.
  cbv zeta. unfold PictureTherapy.recording, PictureTherapy.run.
  rewrite !fold_left_app.
  set (s1 := fold_left _ [PictureTherapy.ClickRecord true] st).
  destruct (picture_chunks sizes s1) as (Hc & Hr & Hm).
  unfold PictureTherapy.run in Hc, Hr, Hm.
  set (s2 := fold_left _ (map PictureTherapy.DataAvailable sizes) s1) in *.
  assert (H1 : PictureTherapy.audioChunksRef s1 = [] /\
               PictureTherapy.isRecording s1 = true /\
               PictureTherapy.mediaRecorderRef s1 = true).
  { subst s1. cbn [fold_left].
    unfold PictureTherapy.dispatch, PictureTherapy.startRecording.
    on_picture st. repeat split. }
  destruct H1 as (H1c & H1r & H1m).
  rewrite H1c in Hc. rewrite H1r in Hr. rewrite H1m in Hm.
  cbn [app] in Hc. cbn [fold_left].
  unfold PictureTherapy.dispatch, PictureTherapy.stopRecording,
    PictureTherapy.recorderStopped.
  rewrite Hr, Hm. cbn [andb].
  revert Hc. generalize s2 as s. intros s Hc.
  on_picture s. cbn in Hc. subst. repeat split.
Qed.

(** X17. A failed submission keeps the recording and shows no result, so
    the same recording can be submitted again; the second, successful
    submission then shows its reply.  Both end with the processing flag
    down, and only the failure raises an alert. *)
Theorem picture_resubmit_after_failure (r st : PictureTherapy.State)
    (blob : PictureTherapy.Blob) (ex : PictureTherapy.Exercise.t)
    (data : PictureTherapy.Feedback.t) :
  PictureTherapy.audioBlob r = Some blob ->
  PictureTherapy.at_index (PictureTherapy.exercises r)
    (PictureTherapy.currentIndex r) = Some ex ->
  let failed := PictureTherapy.processAudio r None st in
  let retried := PictureTherapy.processAudio r (Some data) failed in
  (PictureTherapy.audioBlob failed = PictureTherapy.audioBlob st /\
   PictureTherapy.result failed = PictureTherapy.result st /\
   PictureTherapy.showResult failed = PictureTherapy.showResult st /\
   PictureTherapy.isProcessing failed = false /\
   PictureTherapy.alerts failed =
     (PictureTherapy.alerts st ++
      ["Error processing your recording. Please try again."])%list) /\
  (PictureTherapy.result retried = Some data /\
   PictureTherapy.showResult retried = true /\
   PictureTherapy.isProcessing retried = false /\
   PictureTherapy.alerts retried = PictureTherapy.alerts failed).
Proof.
  intros Hblob Hex. cbv zeta.
  unfold PictureTherapy.processAudio. rewrite Hblob, Hex.
  on_picture st. repeat split.
Qed.

Lemma picture_resubmit_after_failure_witness :
  let recorded :=
    PictureTherapy.run
      (PictureTherapy.Mount :: PictureTherapy.recording [120; 0; 64])
      PictureTherapy.initialState in
  PictureTherapy.audioBlob
    (PictureTherapy.processAudio recorded None recorded)
  = Some [120; 64].
Proof.
  cbv zeta.
  destruct (picture_resubmit_after_failure
              (PictureTherapy.run
                 (PictureTherapy.Mount :: PictureTherapy.recording [120; 0; 64])
                 PictureTherapy.initialState)
              (PictureTherapy.run
                 (PictureTherapy.Mount :: PictureTherapy.recording [120; 0; 64])
                 PictureTherapy.initialState)
              [120; 64]
              (PictureTherapy.Exercise.mk 1 "/images/exercises/apple.jpg"
                 "Apple" "apple" "easy")
              (PictureTherapy.Feedback.mk "apple" 100 100 "Mild" "Well done"
                 None None)
              eq_refl eq_refl) as [(H & _) _].
  rewrite H. reflexivity.
Defined.

(** X18. Selecting another of the languages that have a table (en, hi
    and kn, the values the select offers) restarts the exercises: the list
    becomes the table of that language with its ten exercises, the index
    goes back to 0 and the recording, the result and the played flag of
    the exercise in progress are discarded, while the difficulty is kept.
    Selecting the language already shown changes nothing. *)
Theorem picture_language_restarts (v : string)
    (table : list PictureTherapy.Exercise.t) (st : PictureTherapy.State) :
  (v = PictureTherapy.language st ->
   PictureTherapy.dispatch (PictureTherapy.SelectLanguage v) st = st) /\
  (PictureTherapy.mockExercises v = Some table ->
   v <> PictureTherapy.language st ->
   let st' := PictureTherapy.dispatch (PictureTherapy.SelectLanguage v) st in
   PictureTherapy.language st' = v /\
   PictureTherapy.exercises st' = table /\
   length (PictureTherapy.exercises st') = 10%nat /\
   PictureTherapy.currentIndex st' = 0 /\
   PictureTherapy.audioBlob st' = None /\
   PictureTherapy.result st' = None /\
   PictureTherapy.showResult st' = false /\
   PictureTherapy.hasPlayedWord st' = false /\
   PictureTherapy.difficulty st' = PictureTherapy.difficulty st).
Proof.
  split.
  - intros ->. unfold PictureTherapy.dispatch.
    rewrite String.eqb_refl. reflexivity.
  - intros Htable Hv. cbv zeta. unfold PictureTherapy.dispatch.
    apply String.eqb_neq in Hv. rewrite Hv. cbv zeta.
    pose proof (picture_tables_have_ten v) as Hlen.
    rewrite Htable in Hlen.
    unfold PictureTherapy.exercisesEffect.
    assert (Hlang : PictureTherapy.language (PictureTherapy.setLanguage v st)
                    = v) by (on_picture st; reflexivity).
    rewrite Hlang, Htable.
    on_picture st. repeat split. exact Hlen.
Qed.

Lemma picture_language_restarts_witness :
  PictureTherapy.exercises
    (PictureTherapy.dispatch (PictureTherapy.SelectLanguage "kn")
       PictureTherapy.initialState)
  = PictureTherapy.mockExercises_kn.
Proof.
  apply (proj2 (picture_language_restarts "kn"
                  PictureTherapy.mockExercises_kn
                  PictureTherapy.initialState)).
  - reflexivity.
  - discriminate.
Defined.

(** * Properties of the HTTP client and the login *)

Lemma truthy_Some (s : string) : s <> EmptyString -> truthy (Some s) = true.
Proof.
  intros H. unfold truthy. apply String.eqb_neq in H. rewrite H. reflexivity.
Qed.

(** X19. The access token makes the round trip through the storage: once
    a login reply with a non-empty access token has been stored, every
    request leaves the interceptor with the header "Bearer <token>",
    whatever header it had and whatever token was stored before; the other
    keys of the storage are untouched. *)
Theorem access_token_round_trip (token : string) (storage : Api.Storage)
    (config : Api.RequestConfig) :
  token <> EmptyString ->
  let storage' := Api.storeAccessToken (Some token) storage in
  Api.Authorization (Api.requestInterceptor storage' config)
  = Some ("Bearer " ++ token)%string /\
  forall key, key <> "token"%string ->
    Api.getItem storage' key = Api.getItem storage key.
Proof.
  intros Htoken. cbv zeta.
  unfold Api.storeAccessToken. rewrite (truthy_Some token Htoken).
  split.
  - unfold Api.requestInterceptor, Api.getItem, Api.setItem.
    rewrite String.eqb_refl, (truthy_Some token Htoken). reflexivity.
  - intros key Hkey. unfold Api.getItem, Api.setItem.
    apply String.eqb_neq in Hkey. rewrite Hkey. reflexivity.
Qed.

Lemma access_token_round_trip_witness :
  Api.Authorization
    (Api.requestInterceptor
       (Api.storeAccessToken (Some "abc") Api.emptyStorage)
       (Api.mkRequestConfig None))
  = Some "Bearer abc".
Proof.
  apply (access_token_round_trip "abc" Api.emptyStorage
           (Api.mkRequestConfig None)).
  discriminate.
Defined.

(** X20. A response with status 401 ends the session in the browser: the
    token and the user are removed from the storage, the page is sent to
    "/login", the other keys are kept, and the requests that follow leave
    the interceptor with their header unchanged.  An error with another
    status, or with no response, leaves the browser as it was. *)
Theorem unauthorized_clears_session (browser : Api.Browser)
    (config : Api.RequestConfig) (status : option Z) :
  let browser' := Api.responseError (Some 401%Z) browser in
  Api.getItem (Api.localStorage browser') "token" = None /\
  Api.getItem (Api.localStorage browser') "user" = None /\
  Api.href browser' = "/login"%string /\
  Api.requestInterceptor (Api.localStorage browser') config = config /\
  (forall key, key <> "token"%string -> key <> "user"%string ->
     Api.getItem (Api.localStorage browser') key
     = Api.getItem (Api.localStorage browser) key) /\
  (status <> Some 401%Z -> Api.responseError status browser = browser).
Proof.
  cbv zeta. repeat split.
  - intros key Ht Hu. cbn. unfold Api.getItem, Api.removeItem.
    apply String.eqb_neq in Ht, Hu. rewrite Ht, Hu. reflexivity.
  - intros Hs. unfold Api.responseError.
    destruct status as [[|p|p]|]; try reflexivity.
    do 9 (destruct p as [p|p|]; try reflexivity).
    exfalso. apply Hs. reflexivity.
Qed.

Lemma unauthorized_clears_session_witness :
  Api.responseError (Some 500%Z)
    (Api.mkBrowser (Api.setItem "token" "abc" Api.emptyStorage) "/session")
  = Api.mkBrowser (Api.setItem "token" "abc" Api.emptyStorage) "/session".
Proof.
  apply (unauthorized_clears_session
           (Api.mkBrowser (Api.setItem "token" "abc" Api.emptyStorage)
              "/session")
           (Api.mkRequestConfig None) (Some 500%Z)).
  discriminate.
Defined.

(** X21. A login is all or nothing.  When the request throws or the
    response is not ok, the user and the storage are left as they were
    and an error is thrown to the caller.  When the response is ok, the
    user is signed in as a patient with the id of the reply, also when the
    profile request fails; the token "jwt-token-<id>" is stored, so the
    requests that follow carry "Bearer jwt-token-<id>"; and a route for
    patients renders its children once loading is over. *)
Theorem login_all_or_nothing (stringify : Auth.User -> string)
    (reply : Auth.LoginReply) (profile : Auth.ProfileReply)
    (st : Auth.State) (config : Api.RequestConfig) :
  let st' := fst (Auth.login stringify reply profile st) in
  let thrown := snd (Auth.login stringify reply profile st) in
  match reply with
  | Auth.LoginOk userData =>
      thrown = None /\
      (exists u,
         Auth.user st' = Some u /\
         Auth.id u = Auth.user_id userData /\
         Auth.userType u = "patient"%string /\
         Api.getItem (Auth.localStorage st') "user" = Some (stringify u)) /\
      Api.getItem (Auth.localStorage st') "userId"
      = Some (Auth.user_id userData) /\
      Api.Authorization
        (Api.requestInterceptor (Auth.localStorage st') config)
      = Some ("Bearer jwt-token-" ++ Auth.user_id userData)%string /\
      (Auth.loading st' = false ->
       Auth.ProtectedRoute st' (Some "patient"%string) = Auth.Children)
  | _ => st' = st /\ thrown <> None
  end.
Proof.
  cbv zeta. destruct reply as [message|detail|userData]; cbn [Auth.login].
  - split; [reflexivity|discriminate].
  - split; [reflexivity|discriminate].
  - cbn [fst snd]. split; [reflexivity|]. split; [|split; [|split]].
    + destruct profile as [| |profileData]; eexists;
        cbn [Auth.user Auth.id Auth.userType Auth.localStorage];
        repeat split.
    + reflexivity.
    + reflexivity.
    + intros Hl. unfold Auth.ProtectedRoute.
      cbn [Auth.loading Auth.user] in *. rewrite Hl.
      destruct profile as [| |profileData]; reflexivity.
Qed.

Lemma login_all_or_nothing_witness :
  Auth.ProtectedRoute
    (fst (Auth.login (fun u => Auth.id u)
            (Auth.LoginOk (Auth.mkUserData "7" "Asha" "asha@example.org"))
            Auth.ProfileThrew
            (Auth.mkState None false Api.emptyStorage)))
    (Some "patient"%string)
  = Auth.Children.
Proof.
  apply (login_all_or_nothing (fun u => Auth.id u)
           (Auth.LoginOk (Auth.mkUserData "7" "Asha" "asha@example.org"))
           Auth.ProfileThrew (Auth.mkState None false Api.emptyStorage)
           (Api.mkRequestConfig None)).
  reflexivity.
Defined.

(** X22. A logout after a login signs the user out and removes the token
    and the user from the storage, so the requests that follow keep their
    header as it is and a protected route sends to "/login"; the key
    "userId" written by the login is NOT removed. *)
Theorem logout_keeps_userId (stringify : Auth.User -> string)
    (userData : Auth.UserData) (profile : Auth.ProfileReply)
    (st : Auth.State) (config : Api.RequestConfig)
    (required : option string) :
  let st' :=
    Auth.logout
      (fst (Auth.login stringify (Auth.LoginOk userData) profile st)) in
  Auth.user st' = None /\
  Api.getItem (Auth.localStorage st') "token" = None /\
  Api.getItem (Auth.localStorage st') "user" = None /\
  Api.getItem (Auth.localStorage st') "userId"
  = Some (Auth.user_id userData) /\
  Api.requestInterceptor (Auth.localStorage st') config = config /\
  (Auth.loading st = false ->
   Auth.ProtectedRoute st' required = Auth.NavigateTo "/login").
Proof.
  cbv zeta. cbn [Auth.login fst Auth.logout Auth.user Auth.localStorage
                 Auth.loading].
  repeat split.
  intros Hl. unfold Auth.ProtectedRoute. cbn [Auth.loading Auth.user].
  rewrite Hl. reflexivity.
Qed.

Lemma logout_keeps_userId_witness :
  Auth.ProtectedRoute
    (Auth.logout
       (fst (Auth.login (fun u => Auth.id u)
               (Auth.LoginOk (Auth.mkUserData "7" "Asha" "asha@example.org"))
               Auth.ProfileThrew
               (Auth.mkState None false Api.emptyStorage))))
    None
  = Auth.NavigateTo "/login".
Proof.
  apply (logout_keeps_userId (fun u => Auth.id u)
           (Auth.mkUserData "7" "Asha" "asha@example.org")
           Auth.ProfileThrew (Auth.mkState None false Api.emptyStorage)
           (Api.mkRequestConfig None) None).
  reflexivity.
Defined.

Local Open Scope Q_scope.

(** X23. The WAB-AQ score the session page starts with is the one of the
    profile fetched at login, except that a missing score, a failed
    profile request and a score of zero all give 50; and whatever the
    score, the session starts at the tier easy. *)
Theorem session_starts_with_profile_score (stringify : Auth.User -> string)
    (userData : Auth.UserData) (profile : Auth.ProfileReply)
    (st : Auth.State) (lang : string) :
  let signedIn :=
    Auth.user
      (fst (Auth.login stringify (Auth.LoginOk userData) profile st)) in
  let page := initialState lang (Auth.initialWabScore signedIn) in
  currentDifficulty page = easy /\
  match profile with
  | Auth.ProfileOk profileData =>
      match Auth.wab_score profileData with
      | Some w =>
          (~ w == 0 -> userWabScore page = w) /\
          (w == 0 -> userWabScore page = 50)
      | None => userWabScore page = 50
      end
  | _ => userWabScore page = 50
  end.
Proof.
  cbv zeta. split; [reflexivity|].
  destruct profile as [| |[severity [w|]]]; try reflexivity.
  cbn [Auth.login fst Auth.user Auth.initialWabScore Auth.wabScore
       Auth.wab_score initialState userWabScore].
  destruct (Qeq_bool w 0) eqn:E.
  - apply Qeq_bool_iff in E. split; [intros H; contradiction|reflexivity].
  - split; [reflexivity|].
    intros H. apply Qeq_bool_iff in H. congruence.
Qed.

Lemma session_starts_with_profile_score_witness :
  userWabScore
    (initialState "en"
       (Auth.initialWabScore
          (Auth.user
             (fst (Auth.login (fun u => Auth.id u)
                     (Auth.LoginOk
                        (Auth.mkUserData "7" "Asha" "asha@example.org"))
                     (Auth.ProfileOk (Auth.mkProfileData None (Some 0)))
                     (Auth.mkState None false Api.emptyStorage))))))
  = 50.
Proof.
  apply (proj2 (session_starts_with_profile_score (fun u => Auth.id u)
                  (Auth.mkUserData "7" "Asha" "asha@example.org")
                  (Auth.ProfileOk (Auth.mkProfileData None (Some 0)))
                  (Auth.mkState None false Api.emptyStorage) "en")).
  reflexivity.
Defined.

(** ** Walking through the sentences *)

Local Open Scope Z_scope.

Lemma next_in_list (st : State)
    (completion : option CompletionResult) (confirmed : bool)
    (start : option StartResponse) (sentences : option (list Sentence.t)) :
  Progress.current (sessionProgress st) < Progress.total (sessionProgress st) ->
  (sentenceIndex st + 1 < length (availableSentences st))%nat ->
  let st' := nextSentence st completion confirmed start sentences st in
  sentenceIndex st' = (sentenceIndex st + 1)%nat /\
  currentSentence st'
  = nth_error (availableSentences st) (sentenceIndex st + 1) /\
  availableSentences st' = availableSentences st /\
  sessionResult st' = None /\
  Progress.current (sessionProgress st')
  = Progress.current (sessionProgress st) + 1 /\
  Progress.total (sessionProgress st') = Progress.total (sessionProgress st) /\
  Progress.completed (sessionProgress st')
  = Progress.completed (sessionProgress st).
Proof.
  intros Hlt Hidx. cbv zeta. unfold nextSentence.
  apply Z.ltb_lt in Hlt. rewrite Hlt.
  apply Nat.ltb_lt in Hidx. rewrite Hidx.
  on_store st. repeat split.
Qed.

(** X24. Below the quota and within the list, clicks on next walk through
    the available sentences one by one: after k clicks the index and the
    sentence counter have both advanced by k, the sentence on screen is
    the one k places further in the list, the result of the last attempt
    is cleared, and neither the list nor the attempt count has changed. *)
Theorem next_walks_the_list (k : nat) (st : State)
    (completion : option CompletionResult) (confirmed : bool)
    (start : option StartResponse) (sentences : option (list Sentence.t)) :
  Progress.current (sessionProgress st) + Z.of_nat k
  <= Progress.total (sessionProgress st) ->
  (sentenceIndex st + k < length (availableSentences st))%nat ->
  (0 < k)%nat ->
  let st' :=
    run (repeat (ClickNext completion confirmed start sentences) k) st in
  sentenceIndex st' = (sentenceIndex st + k)%nat /\
  currentSentence st'
  = nth_error (availableSentences st) (sentenceIndex st + k) /\
  (exists s, currentSentence st' = Some s) /\
  availableSentences st' = availableSentences st /\
  sessionResult st' = None /\
  Progress.current (sessionProgress st')
  = Progress.current (sessionProgress st) + Z.of_nat k /\
  Progress.completed (sessionProgress st')
  = Progress.completed (sessionProgress st).
Proof.
  revert st. induction k as [|k IH]; intros st Hq Hidx Hk; [lia|].
  cbv zeta.
  destruct (next_in_list st completion confirmed start sentences)
    as (Hi & Hs & Ha & Hr & Hc & Ht & Hn); [lia|lia|].
  change (run (repeat (ClickNext completion confirmed start sentences) (S k))
            st)
    with (run (repeat (ClickNext completion confirmed start sentences) k)
            (nextSentence st completion confirmed start sentences st)).
  set (st1 := nextSentence st completion confirmed start sentences st) in *.
  destruct k as [|k'].
  - change (run (repeat (ClickNext completion confirmed start sentences) 0)
              st1) with st1.
    rewrite Hi, Hs, Ha, Hr, Hc, Hn.
    repeat split; try reflexivity.
    destruct (nth_error (availableSentences st) (sentenceIndex st + 1))
      as [s|] eqn:E; [eauto|].
    apply nth_error_None in E. lia.
  - destruct (IH st1) as (Hi' & Hs' & He' & Ha' & Hr' & Hc' & Hn').
    + rewrite Hc, Ht. lia.
    + rewrite Hi, Ha. lia.
    + lia.
    + destruct He' as [s He']. rewrite Hs', Hi, Ha in He'.
      rewrite Hi', Hs', Ha', Hr', Hc', Hn', Hi, Ha, Hc, Hn.
      replace (sentenceIndex st + 1 + S k')%nat
        with (sentenceIndex st + S (S k'))%nat in * by lia.
      repeat split; try reflexivity; try lia.
      exists s. exact He'.
Qed.

Lemma next_walks_the_list_witness :
  let st :=
    setAvailableSentences (mockSentences "en" easy) firstAttempt in
  currentSentence (run (repeat (ClickNext None false None None) 1) st)
  = Some (Sentence.mk "2" "Water" "en" easy "basic" ["Water"]).
Proof.
  cbv zeta.
  destruct (next_walks_the_list 1
              (setAvailableSentences (mockSentences "en" easy) firstAttempt)
              None false None None) as (_ & Hs & _).
  - vm_compute. discriminate.
  - cbn. lia.
  - lia.
  - rewrite Hs. reflexivity.
Defined.

(** * The running mean of a session *)

Local Open Scope Q_scope.






